(** * Mainflux: the SMPP notifier's start-up and the InfluxDB writer's tests

    A shallow embedding of [cmd/smpp-notifier/main.go] (configuration loading,
    tracer initialisation and the boot sequence of [main]) and of the message
    batches built by the InfluxDB writer's tests, together with models of the
    consumer pipeline and of the notification dispatcher the specification
    describes. *)

From Stdlib Require Import ZArith List String Ascii Bool Lia.
From Stdlib Require Import Floats.SpecFloat.
From stdpp Require Import base option list strings gmap.

Open Scope string_scope.
Open Scope Z_scope.

(** ** Go's [float64]: IEEE 754 binary64 *)

Module F64.

Definition prec : Z := 53.
Definition emax : Z := 1024.

Definition float64 : Type := spec_float.

(** [float64(z)] for an integer [z]: rounded to nearest, ties to even. *)
Definition of_Z (z : Z) : float64 := binary_normalize prec emax z 0 false.

Definition mul (x y : float64) : float64 := SFmul prec emax x y.
Definition div (x y : float64) : float64 := SFdiv prec emax x y.
Definition sub (x y : float64) : float64 := SFsub prec emax x y.

(** [uint64(x)] for a finite non-negative [x] below [2^64]: the fraction is
    dropped.  Go leaves the other conversions to the hardware; they are given 0
    here and [time.ParseDuration], the one user, never reaches them. *)
Definition to_uint64 (x : float64) : Z :=
  match x with
  | S754_finite false m e =>
      let v := if 0 <=? e then Z.shiftl (Z.pos m) e else Z.shiftr (Z.pos m) (- e) in
      if v <? 2 ^ 64 then v else 0
  | _ => 0
  end.

End F64.

(** ** [strconv]: the parsers [loadConfig] calls *)

Module strconv.

Inductive NumError : Type := ErrSyntax | ErrRange.

Definition maxUint64 : Z := 2 ^ 64 - 1.

Definition byte_of (c : ascii) : Z := Z.of_nat (nat_of_ascii c).

(** [lower(c)]: [c | ('x' - 'X')]. *)
Definition lower (c : Z) : Z := Z.lor c 32.

(** The digit a byte stands for in [ParseUint]'s loop, [None] where the loop
    returns a syntax error ([base0] is false for the bases used here, so an
    underscore is no digit). *)
Definition digit_of (c : Z) : option Z :=
  if (48 <=? c) && (c <=? 57) then Some (c - 48)
  else if (97 <=? lower c) && (lower c <=? 122) then Some (lower c - 97 + 10)
  else None.

(** The loop of [ParseUint] over the bytes of [s]; [n] is the accumulator. *)
Fixpoint parseUintLoop (base cutoff maxVal : Z) (s : string) (n : Z)
  : Z * option NumError :=
  match s with
  | EmptyString => (n, None)
  | String c s' =>
      match digit_of (byte_of c) with
      | None => (0, Some ErrSyntax)
      | Some d =>
          if base <=? d then (0, Some ErrSyntax)
          else if cutoff <=? n then (maxVal, Some ErrRange)
          else
            let n := (n * base) mod 2 ^ 64 in
            let n1 := (n + d) mod 2 ^ 64 in
            if (n1 <? n) || (maxVal <? n1) then (maxVal, Some ErrRange)
            else parseUintLoop base cutoff maxVal s' n1
      end
  end.

(** [strconv.ParseUint(s, base, bitSize)] for [2 <= base <= 36] and
    [1 <= bitSize <= 64]. *)
Definition ParseUint (s : string) (base bitSize : Z) : Z * option NumError :=
  if String.eqb s "" then (0, Some ErrSyntax)
  else
    let cutoff := maxUint64 / base + 1 in
    let maxVal := Z.shiftl 1 bitSize - 1 in
    parseUintLoop base cutoff maxVal s 0.

(** [strconv.ParseBool]. *)
Definition ParseBool (str : string) : bool * option NumError :=
  if existsb (String.eqb str) ["1"; "t"; "T"; "true"; "TRUE"; "True"]
  then (true, None)
  else if existsb (String.eqb str) ["0"; "f"; "F"; "false"; "FALSE"; "False"]
  then (false, None)
  else (false, Some ErrSyntax).

(** The value of a string of decimal digits read after the digits [acc] stands
    for; [None] when some byte is no digit. *)
Fixpoint decimal (s : string) (acc : Z) : option Z :=
  match s with
  | EmptyString => Some acc
  | String c s' =>
      if (48 <=? byte_of c) && (byte_of c <=? 57)
      then decimal s' (10 * acc + (byte_of c - 48))
      else None
  end.

(** A base-10 unsigned integer that fits in 8 bits: one digit at least, digits
    only, and a value of at most 255. *)
Definition decimal_uint8 (s : string) : option Z :=
  if String.eqb s "" then None
  else
    match decimal s 0 with
    | Some n => if n <=? 255 then Some n else None
    | None => None
    end.

End strconv.

(** ** [time.ParseDuration] (Go 1.17 and later) *)

Module time.

Import F64.

Inductive error : Type :=
| InvalidDuration (orig : string)
| MissingUnit (orig : string)
| UnknownUnit (u orig : string).

(** A [Duration] is an [int64] count of nanoseconds. *)
Definition Duration : Type := Z.

Definition u64 (z : Z) : Z := z mod 2 ^ 64.
Definition int64 (z : Z) : Z := (z + 2 ^ 63) mod 2 ^ 64 - 2 ^ 63.

Definition is_digit (c : ascii) : bool :=
  (48 <=? strconv.byte_of c) && (strconv.byte_of c <=? 57).

(** The loop of [leadingInt]: the third component is [true] for
    [errLeadingInt]. *)
Fixpoint leadingInt_loop (s : string) (x : Z) : Z * string * bool :=
  match s with
  | EmptyString => (x, s, false)
  | String c s' =>
      if is_digit c then
        if 2 ^ 63 / 10 <? x then (0, "", true)
        else
          let x := u64 (x * 10 + strconv.byte_of c - 48) in
          if 2 ^ 63 <? x then (0, "", true) else leadingInt_loop s' x
      else (x, s, false)
  end.

Definition leadingInt (s : string) : Z * string * bool := leadingInt_loop s 0.

(** The loop of [leadingFraction]: on overflow it stops accumulating and keeps
    consuming digits. *)
Fixpoint leadingFraction_loop (s : string) (x : Z) (scale : float64)
  (overflow : bool) : Z * float64 * string :=
  match s with
  | EmptyString => (x, scale, s)
  | String c s' =>
      if is_digit c then
        if overflow then leadingFraction_loop s' x scale overflow
        else if (2 ^ 63 - 1) / 10 <? x then leadingFraction_loop s' x scale true
        else
          let y := u64 (x * 10 + strconv.byte_of c - 48) in
          if 2 ^ 63 <? y then leadingFraction_loop s' x scale true
          else leadingFraction_loop s' y (mul scale (of_Z 10)) false
      else (x, scale, s)
  end.

Definition leadingFraction (s : string) : Z * float64 * string :=
  leadingFraction_loop s 0 (of_Z 1) false.

Definition Nanosecond : Z := 1.
Definition Microsecond : Z := 1000 * Nanosecond.
Definition Millisecond : Z := 1000 * Microsecond.
Definition Second : Z := 1000 * Millisecond.
Definition Minute : Z := 60 * Second.
Definition Hour : Z := 60 * Minute.

(** The two spellings of the micro sign, as their UTF-8 bytes. *)
Definition micro_B5 : string :=
  String (ascii_of_nat 194) (String (ascii_of_nat 181) "s").
Definition micro_03BC : string :=
  String (ascii_of_nat 206) (String (ascii_of_nat 188) "s").

Definition unitMap : list (string * Z) :=
  [ ("ns", Nanosecond); ("us", Microsecond); (micro_B5, Microsecond);
    (micro_03BC, Microsecond); ("ms", Millisecond); ("s", Second);
    ("m", Minute); ("h", Hour) ].

Fixpoint lookupUnit (m : list (string * Z)) (u : string) : option Z :=
  match m with
  | [] => None
  | (k, v) :: m' => if String.eqb k u then Some v else lookupUnit m' u
  end.

Definition is_dot (c : ascii) : bool := strconv.byte_of c =? 46.

(** The unit: the bytes of [s] up to the first ['.'] or digit, and the rest. *)
Fixpoint splitUnit (s : string) : string * string :=
  match s with
  | EmptyString => ("", s)
  | String c s' =>
      if is_dot c || is_digit c then ("", s)
      else let '(u, r) := splitUnit s' in (String c u, r)
  end.

(** One round of the loop [for s != ""] of [ParseDuration]: [inl] is an error
    return, [inr (s', d')] the state after the round. *)
Definition parseStep (orig s : string) (d : Z) : error + string * Z :=
  match s with
  | EmptyString => inr (s, d)
  | String c0 _ =>
      if negb (is_dot c0 || is_digit c0) then inl (InvalidDuration orig)
      else
        let pl := String.length s in
        let '(v, s1, err) := leadingInt s in
        if err then inl (InvalidDuration orig)
        else
          let pre := negb (Nat.eqb pl (String.length s1)) in
          let '(f, scale, s2, post) :=
            match s1 with
            | String c1 t =>
                if is_dot c1 then
                  let '(f, scale, r) := leadingFraction t in
                  (f, scale, r, negb (Nat.eqb (String.length t) (String.length r)))
                else (0, of_Z 1, s1, false)
            | EmptyString => (0, of_Z 1, s1, false)
            end in
          if negb pre && negb post then inl (InvalidDuration orig)
          else
            let '(u, s3) := splitUnit s2 in
            if String.eqb u "" then inl (MissingUnit orig)
            else
              match lookupUnit unitMap u with
              | None => inl (UnknownUnit u orig)
              | Some unit =>
                  if 2 ^ 63 / unit <? v then inl (InvalidDuration orig)
                  else
                    let v := u64 (v * unit) in
                    let v :=
                      if 0 <? f
                      then u64 (v + to_uint64 (mul (of_Z f) (div (of_Z unit) scale)))
                      else v in
                    if (0 <? f) && (2 ^ 63 <? v) then inl (InvalidDuration orig)
                    else
                      let d := u64 (d + v) in
                      if 2 ^ 63 <? d then inl (InvalidDuration orig)
                      else inr (s3, d)
              end
  end.

(** The loop itself; every round consumes a byte, so [fuel] above the length of
    [s] is never used up ([None] marks running out). *)
Fixpoint parseLoop (fuel : nat) (orig s : string) (d : Z) : option (error + Z) :=
  match s with
  | EmptyString => Some (inr d)
  | String _ _ =>
      match fuel with
      | O => None
      | S fuel' =>
          match parseStep orig s d with
          | inl e => Some (inl e)
          | inr (s', d') => parseLoop fuel' orig s' d'
          end
      end
  end.

(** [time.ParseDuration]: the duration and the error ([None] is [nil]). *)
Definition ParseDuration (s : string) : Duration * option error :=
  let orig := s in
  let '(neg, s) :=
    match s with
    | String c t =>
        if (strconv.byte_of c =? 45) || (strconv.byte_of c =? 43)
        then (strconv.byte_of c =? 45, t) else (false, s)
    | EmptyString => (false, s)
    end in
  if String.eqb s "0" then (0, None)
  else if String.eqb s "" then (0, Some (InvalidDuration orig))
  else
    match parseLoop (String.length s) orig s 0 with
    | None => (0, Some (InvalidDuration orig))
    | Some (inl e) => (0, Some e)
    | Some (inr d) =>
        if neg then (int64 (- int64 d), None)
        else if 2 ^ 63 - 1 <? d then (0, Some (InvalidDuration orig))
        else (int64 d, None)
    end.

End time.

(** ** [cmd/smpp-notifier/main.go] *)

Module Main.

Definition defLogLevel := "error".
Definition defDBHost := "localhost".
Definition defDBPort := "5432".
Definition defDBUser := "mainflux".
Definition defDBPass := "mainflux".
Definition defDB := "subscriptions".
Definition defConfigPath := "/config.toml".
Definition defDBSSLMode := "disable".
Definition defDBSSLCert := "".
Definition defDBSSLKey := "".
Definition defDBSSLRootCert := "".
Definition defHTTPPort := "8907".
Definition defServerCert := "".
Definition defServerKey := "".
Definition defFrom := "".
Definition defJaegerURL := "".
Definition defNatsURL := "nats://localhost:4222".

Definition defSmppAddress := "".
Definition defSmppUsername := "".
Definition defSmppPassword := "".
Definition defSmppSystemType := "".
Definition defSmppSrcAddrTON := "0".
Definition defSmppDstAddrTON := "0".
Definition defSmppSrcAddrNPI := "0".
Definition defSmppDstAddrNPI := "0".

Definition defAuthTLS := "false".
Definition defAuthCACerts := "".
Definition defAuthURL := "localhost:8181".
Definition defAuthTimeout := "1s".

Definition envLogLevel := "MF_SMPP_NOTIFIER_LOG_LEVEL".
Definition envDBHost := "MF_SMPP_NOTIFIER_DB_HOST".
Definition envDBPort := "MF_SMPP_NOTIFIER_DB_PORT".
Definition envDBUser := "MF_SMPP_NOTIFIER_DB_USER".
Definition envDBPass := "MF_SMPP_NOTIFIER_DB_PASS".
Definition envDB := "MF_SMPP_NOTIFIER_DB".
Definition envConfigPath := "MF_SMPP_NOTIFIER_WRITER_CONFIG_PATH".
Definition envDBSSLMode := "MF_SMPP_NOTIFIER_DB_SSL_MODE".
Definition envDBSSLCert := "MF_SMPP_NOTIFIER_DB_SSL_CERT".
Definition envDBSSLKey := "MF_SMPP_NOTIFIER_DB_SSL_KEY".
Definition envDBSSLRootCert := "MF_SMPP_NOTIFIER_DB_SSL_ROOT_CERT".
Definition envHTTPPort := "MF_SMPP_NOTIFIER_HTTP_PORT".
Definition envServerCert := "MF_SMPP_NOTIFIER_SERVER_CERT".
Definition envServerKey := "MF_SMPP_NOTIFIER_SERVER_KEY".
Definition envFrom := "MF_SMPP_NOTIFIER_SOURCE_ADDR".
Definition envJaegerURL := "MF_JAEGER_URL".
Definition envNatsURL := "MF_NATS_URL".

Definition envSmppAddress := "MF_SMPP_ADDRESS".
Definition envSmppUsername := "MF_SMPP_USERNAME".
Definition envSmppPassword := "MF_SMPP_PASSWORD".
Definition envSmppSystemType := "MF_SMPP_SYSTEM_TYPE".
Definition envSmppSrcAddrTON := "MF_SMPP_SRC_ADDR_TON".
Definition envSmppDstAddrTON := "MF_SMPP_DST_ADDR_TON".
Definition envSmppSrcAddrNPI := "MF_SMPP_SRC_ADDR_NPI".
Definition envSmppDstAddrNPI := "MF_SMPP_DST_ADDR_NPI".

Definition envAuthTLS := "MF_AUTH_CLIENT_TLS".
Definition envAuthCACerts := "MF_AUTH_CA_CERTS".
Definition envAuthURL := "MF_AUTH_GRPC_URL".
Definition envAuthTimeout := "MF_AUTH_GRPC_TIMEOUT".

(** [postgres.Config], by the fields [loadConfig] fills. *)
Record postgres_Config : Type := {
  Host : string;
  Port : string;
  User : string;
  Pass : string;
  Name : string;
  SSLMode : string;
  SSLCert : string;
  SSLKey : string;
  SSLRootCert : string
}.

(** [mfsmpp.Config], by the fields [loadConfig] fills; the four address types
    are [uint8]. *)
Record mfsmpp_Config : Type := {
  Address : string;
  Username : string;
  Password : string;
  SystemType : string;
  SourceAddrTON : Z;
  DestAddrTON : Z;
  SourceAddrNPI : Z;
  DestAddrNPI : Z
}.

Record config : Type := {
  natsURL : string;
  configPath : string;
  logLevel : string;
  dbConfig : postgres_Config;
  smppConf : mfsmpp_Config;
  from : string;
  httpPort : string;
  serverCert : string;
  serverKey : string;
  jaegerURL : string;
  authTLS : bool;
  authCACerts : string;
  authURL : string;
  authTimeout : time.Duration
}.

(** The process environment, and [os.Getenv]: the value of the variable, empty
    when it is not set. *)
Definition Getenv (environ : gmap string string) (key : string) : string :=
  default "" (environ !! key).

(** Modelled from the spec: [mainflux.Env] (the root package's [env.go], not
    among the sources), which reads an environment variable and falls back to
    the given default when the variable has no value. *)
Definition Env (environ : gmap string string) (key fallback : string) : string :=
  let v := Getenv environ key in
  if String.eqb v "" then fallback else v.

(** An argument of a formatted message: a string, or an error printed with
    [%s]. *)
Inductive arg : Type :=
| AStr (s : string)
| ADurationErr (e : time.error)
| AErr (text : string).

Inductive level : Type := StdLog | LevelError | LevelInfo.

(** One call that writes a line: [log.Fatalf]'s, or the service logger's. *)
Record entry : Type := { lvl : level; format : string; args : list arg }.

(** What a call comes to: it returns, or the process exits with a status. *)
Inductive outcome (A : Type) : Type :=
| Return (a : A)
| Exit (code : Z).
Arguments Return {A} a.
Arguments Exit {A} code.

(** Code that logs and may exit: the lines written so far are threaded
    through. *)
Definition M (A : Type) : Type := list entry -> outcome A * list entry.

Definition ret {A} (a : A) : M A := fun out => (Return a, out).

Definition bind {A B} (m : M A) (k : A -> M B) : M B :=
  fun out =>
    match m out with
    | (Return a, out') => k a out'
    | (Exit c, out') => (Exit c, out')
    end.

Notation "x <- m ;; k" := (bind m (fun x => k))
  (at level 100, m at next level, right associativity).
Notation "m ;;; k" := (bind m (fun _ => k))
  (at level 100, right associativity).

Definition write (e : entry) : M unit := fun out => (Return tt, (out ++ [e])%list).

(** [os.Exit(code)]. *)
Definition os_Exit {A} (code : Z) : M A := fun out => (Exit code, out).

(** [log.Fatalf]: print, then [os.Exit(1)]. *)
Definition log_Fatalf {A} (fmt : string) (a : list arg) : M A :=
  write {| lvl := StdLog; format := fmt; args := a |} ;;; os_Exit 1.

Definition logger_Error (fmt : string) (a : list arg) : M unit :=
  write {| lvl := LevelError; format := fmt; args := a |}.

Definition logger_Info (fmt : string) (a : list arg) : M unit :=
  write {| lvl := LevelInfo; format := fmt; args := a |}.

(** [uint8(x)] of a [uint64]. *)
Definition uint8 (x : Z) : Z := x mod 2 ^ 8.

(** [strconv.ParseUint(mainflux.Env(key, def), 10, 8)] with its fatal branch. *)
Definition parseAddr (environ : gmap string string) (key def : string) : M Z :=
  match strconv.ParseUint (Env environ key def) 10 8 with
  | (n, None) => ret n
  | (_, Some _) => log_Fatalf "Invalid value passed for %s" [AStr key]
  end.

Definition loadConfig (environ : gmap string string) : M config :=
  let Env := Env environ in
  authTimeout <-
    match time.ParseDuration (Env envAuthTimeout defAuthTimeout) with
    | (d, None) => ret d
    | (_, Some err) =>
        log_Fatalf "Invalid %s value: %s" [AStr envAuthTimeout; ADurationErr err]
    end ;;
  tls <-
    match strconv.ParseBool (Env envAuthTLS defAuthTLS) with
    | (b, None) => ret b
    | (_, Some _) => log_Fatalf "Invalid value passed for %s\n" [AStr envAuthTLS]
    end ;;
  let dbConfig := {|
    Host := Env envDBHost defDBHost;
    Port := Env envDBPort defDBPort;
    User := Env envDBUser defDBUser;
    Pass := Env envDBPass defDBPass;
    Name := Env envDB defDB;
    SSLMode := Env envDBSSLMode defDBSSLMode;
    SSLCert := Env envDBSSLCert defDBSSLCert;
    SSLKey := Env envDBSSLKey defDBSSLKey;
    SSLRootCert := Env envDBSSLRootCert defDBSSLRootCert
  |} in
  saton <- parseAddr environ envSmppSrcAddrTON defSmppSrcAddrTON ;;
  daton <- parseAddr environ envSmppDstAddrTON defSmppDstAddrTON ;;
  sanpi <- parseAddr environ envSmppSrcAddrNPI defSmppSrcAddrNPI ;;
  danpi <- parseAddr environ envSmppDstAddrNPI defSmppDstAddrNPI ;;
  let smppConf := {|
    Address := Env envSmppAddress defSmppAddress;
    Username := Env envSmppUsername defSmppUsername;
    Password := Env envSmppPassword defSmppPassword;
    SystemType := Env envSmppSystemType defSmppSystemType;
    SourceAddrTON := uint8 saton;
    DestAddrTON := uint8 daton;
    SourceAddrNPI := uint8 sanpi;
    DestAddrNPI := uint8 danpi
  |} in
  ret {|
    logLevel := Env envLogLevel defLogLevel;
    natsURL := Env envNatsURL defNatsURL;
    configPath := Env envConfigPath defConfigPath;
    dbConfig := dbConfig;
    smppConf := smppConf;
    from := Env envFrom defFrom;
    httpPort := Env envHTTPPort defHTTPPort;
    serverCert := Env envServerCert defServerCert;
    serverKey := Env envServerKey defServerKey;
    jaegerURL := Env envJaegerURL defJaegerURL;
    authTLS := tls;
    authCACerts := Env envAuthCACerts defAuthCACerts;
    authURL := Env envAuthURL defAuthURL;
    authTimeout := authTimeout
  |}.

(** The tracer and the closer [initJaeger] hands back. *)
Inductive Tracer : Type := NoopTracer | JaegerTracer (svcName url : string).
Inductive Closer : Type := NopCloser | JaegerCloser (svcName url : string).

Inductive DialOption : Type :=
| WithTransportCredentials (caCerts : string)
| WithInsecure.

(** What lies outside the process at boot: the environment, and for each
    constructor [main] calls in another package the error it returns for its
    arguments ([None] is [nil]; an error is given by its text). *)
Record World : Type := {
  environ : gmap string string;
  logger_New : string -> option string;
  postgres_Connect : postgres_Config -> option string;
  nats_NewPubSub : string -> option string;
  jconfig_NewTracer : string -> string -> option string;
  credentials_NewClientTLSFromFile : string -> option string;
  grpc_Dial : string -> list DialOption -> option string;
  consumers_Start : string -> option string
}.

Section Boot.

Variable w : World.

Definition initJaeger (svcName url : string) : M (Tracer * Closer) :=
  if String.eqb url "" then ret (NoopTracer, NopCloser)
  else
    match jconfig_NewTracer w svcName url with
    | Some err =>
        logger_Error "Failed to init Jaeger: %s" [AErr err] ;;; os_Exit 1
    | None => ret (JaegerTracer svcName url, JaegerCloser svcName url)
    end.

Definition connectToDB (dbConfig : postgres_Config) : M unit :=
  match postgres_Connect w dbConfig with
  | Some err =>
      logger_Error "Failed to connect to postgres: %s" [AErr err] ;;; os_Exit 1
  | None => ret tt
  end.

(** [connectToAuth]: the dial options it ends up using are its result. *)
Definition connectToAuth (cfg : config) (tracer : Tracer) : M (list DialOption) :=
  opts <-
    (if authTLS cfg then
       if negb (String.eqb (authCACerts cfg) "") then
         match credentials_NewClientTLSFromFile w (authCACerts cfg) with
         | Some err =>
             logger_Error "Failed to create tls credentials: %s" [AErr err] ;;;
             os_Exit 1
         | None => ret [WithTransportCredentials (authCACerts cfg)]
         end
       else ret []
     else
       logger_Info "gRPC communication is not encrypted" [] ;;;
       ret [WithInsecure]) ;;
  match grpc_Dial w (authURL cfg) opts with
  | Some err =>
      logger_Error "Failed to connect to auth service: %s" [AErr err] ;;;
      os_Exit 1
  | None => ret opts
  end.

(** What [main] has built when it starts serving. *)
Record Service : Type := {
  svc_cfg : config;
  svc_tracer : Tracer;
  svc_dbTracer : Tracer;
  svc_authTracer : Tracer;
  svc_authOpts : list DialOption;
  svc_consuming : bool
}.

(** [main] up to the point where it starts the HTTP server and waits on
    [errs]. *)
Definition boot : M Service :=
  cfg <- loadConfig (environ w) ;;
  match logger_New w (logLevel cfg) with
  | Some err => log_Fatalf err []
  | None => ret tt
  end ;;;
  connectToDB (dbConfig cfg) ;;;
  match nats_NewPubSub w (natsURL cfg) with
  | Some err =>
      logger_Error "Failed to connect to NATS: %s" [AErr err] ;;; os_Exit 1
  | None => ret tt
  end ;;;
  a <- initJaeger "auth" (jaegerURL cfg) ;;
  opts <- connectToAuth cfg (fst a) ;;
  t <- initJaeger "smpp-notifier" (jaegerURL cfg) ;;
  d <- initJaeger "smpp-notifier_db" (jaegerURL cfg) ;;
  started <-
    match consumers_Start w (configPath cfg) with
    | Some err =>
        logger_Error "Failed to create Postgres writer: %s" [AErr err] ;;;
        ret false
    | None => ret true
    end ;;
  ret {| svc_cfg := cfg; svc_tracer := fst t; svc_dbTracer := fst d;
         svc_authTracer := fst a; svc_authOpts := opts;
         svc_consuming := started |}.

End Boot.

(** What can happen while [main] waits on [errs]: only [startHTTPServer] and
    the signal goroutine hold the channel, so a handled message, failed or not,
    sends nothing on it. *)
Inductive event : Type :=
| MessageHandled (err : option string)
| HTTPServerReturned (err : string)
| Sigint (name : string).

Inductive phase : Type := Serving | Terminated.

(** [err = <-errs] followed by the last log line, one event at a time. *)
Definition wait (ev : event) : M phase :=
  match ev with
  | MessageHandled _ => ret Serving
  | HTTPServerReturned err =>
      logger_Error "Users service terminated: %s" [AErr err] ;;; ret Terminated
  | Sigint name =>
      logger_Error "Users service terminated: %s" [AErr name] ;;; ret Terminated
  end.

Fixpoint serve (evs : list event) : M phase :=
  match evs with
  | [] => ret Serving
  | ev :: evs' =>
      p <- wait ev ;;
      match p with
      | Serving => serve evs'
      | Terminated => ret Terminated
      end
  end.

(** [main]: boot, then wait. *)
Definition main (w : World) (evs : list event) : M phase :=
  boot w ;;; serve evs.

(** *** The settings [loadConfig] reads, for stating what it returns *)

Definition duration_ok (v : string) : bool :=
  match snd (time.ParseDuration v) with None => true | Some _ => false end.

Definition bool_ok (v : string) : bool :=
  match snd (strconv.ParseBool v) with None => true | Some _ => false end.

Definition uint8_ok (v : string) : bool :=
  match strconv.decimal_uint8 v with Some _ => true | None => false end.

(** The variable [key] is set, to a value that [ok] refuses. *)
Definition unparsable (environ : gmap string string) (key : string)
  (ok : string -> bool) : bool :=
  negb (String.eqb (Getenv environ key) "") && negb (ok (Getenv environ key)).

Definition config_fatal (environ : gmap string string) : bool :=
  unparsable environ envAuthTimeout duration_ok
  || unparsable environ envAuthTLS bool_ok
  || unparsable environ envSmppSrcAddrTON uint8_ok
  || unparsable environ envSmppDstAddrTON uint8_ok
  || unparsable environ envSmppSrcAddrNPI uint8_ok
  || unparsable environ envSmppDstAddrNPI uint8_ok.

(** The settings kept as strings: variable, default, and the field of [config]
    that holds the value. *)
Definition string_settings : list (string * string * (config -> string)) :=
  [ (envLogLevel, defLogLevel, logLevel);
    (envNatsURL, defNatsURL, natsURL);
    (envConfigPath, defConfigPath, configPath);
    (envDBHost, defDBHost, fun c => Host (dbConfig c));
    (envDBPort, defDBPort, fun c => Port (dbConfig c));
    (envDBUser, defDBUser, fun c => User (dbConfig c));
    (envDBPass, defDBPass, fun c => Pass (dbConfig c));
    (envDB, defDB, fun c => Name (dbConfig c));
    (envDBSSLMode, defDBSSLMode, fun c => SSLMode (dbConfig c));
    (envDBSSLCert, defDBSSLCert, fun c => SSLCert (dbConfig c));
    (envDBSSLKey, defDBSSLKey, fun c => SSLKey (dbConfig c));
    (envDBSSLRootCert, defDBSSLRootCert, fun c => SSLRootCert (dbConfig c));
    (envSmppAddress, defSmppAddress, fun c => Address (smppConf c));
    (envSmppUsername, defSmppUsername, fun c => Username (smppConf c));
    (envSmppPassword, defSmppPassword, fun c => Password (smppConf c));
    (envSmppSystemType, defSmppSystemType, fun c => SystemType (smppConf c));
    (envFrom, defFrom, from);
    (envHTTPPort, defHTTPPort, httpPort);
    (envServerCert, defServerCert, serverCert);
    (envServerKey, defServerKey, serverKey);
    (envJaegerURL, defJaegerURL, jaegerURL);
    (envAuthCACerts, defAuthCACerts, authCACerts);
    (envAuthURL, defAuthURL, authURL) ].

(** The four SMPP address types: variable, default, and field. *)
Definition address_settings : list (string * string * (config -> Z)) :=
  [ (envSmppSrcAddrTON, defSmppSrcAddrTON, fun c => SourceAddrTON (smppConf c));
    (envSmppDstAddrTON, defSmppDstAddrTON, fun c => DestAddrTON (smppConf c));
    (envSmppSrcAddrNPI, defSmppSrcAddrNPI, fun c => SourceAddrNPI (smppConf c));
    (envSmppDstAddrNPI, defSmppDstAddrNPI, fun c => DestAddrNPI (smppConf c)) ].

(** The line [log.Fatalf] writes for an address type that does not parse. *)
Definition invalid_value (key : string) : entry :=
  {| lvl := StdLog; format := "Invalid value passed for %s"; args := [AStr key] |}.

(** *** The conditions under which [boot] exits, for stating them *)

Definition failed (err : option string) : bool :=
  match err with Some _ => true | None => false end.

(** The options [connectToAuth] dials with. *)
Definition dial_options (cfg : config) : list DialOption :=
  if authTLS cfg then
    if negb (String.eqb (authCACerts cfg) "")
    then [WithTransportCredentials (authCACerts cfg)] else []
  else [WithInsecure].

Definition tracer_fails (w : World) (svcName : string) (cfg : config) : bool :=
  negb (String.eqb (jaegerURL cfg) "")
  && failed (jconfig_NewTracer w svcName (jaegerURL cfg)).

Definition credentials_fail (w : World) (cfg : config) : bool :=
  authTLS cfg && negb (String.eqb (authCACerts cfg) "")
  && failed (credentials_NewClientTLSFromFile w (authCACerts cfg)).

Definition logger_fails (w : World) (cfg : config) : bool :=
  failed (logger_New w (logLevel cfg)).

Definition store_unreachable (w : World) (cfg : config) : bool :=
  failed (postgres_Connect w (dbConfig cfg)).

Definition bus_unreachable (w : World) (cfg : config) : bool :=
  failed (nats_NewPubSub w (natsURL cfg)).

Definition auth_unreachable (w : World) (cfg : config) : bool :=
  credentials_fail w cfg || failed (grpc_Dial w (authURL cfg) (dial_options cfg)).

(** Some step of [boot] after [loadConfig] fails fatally. *)
Definition boot_failure (w : World) (cfg : config) : bool :=
  logger_fails w cfg
  || store_unreachable w cfg
  || bus_unreachable w cfg
  || tracer_fails w "auth" cfg
  || auth_unreachable w cfg
  || tracer_fails w "smpp-notifier" cfg
  || tracer_fails w "smpp-notifier_db" cfg.

Definition is_message (ev : event) : bool :=
  match ev with MessageHandled _ => true | _ => false end.

(** *** Sample surroundings *)

(** Every collaborator answers, whatever it is asked. *)
Definition world_ok (env : gmap string string) : World := {|
  environ := env;
  logger_New := fun _ => None;
  postgres_Connect := fun _ => None;
  nats_NewPubSub := fun _ => None;
  jconfig_NewTracer := fun _ _ => None;
  credentials_NewClientTLSFromFile := fun _ => None;
  grpc_Dial := fun _ _ => None;
  consumers_Start := fun _ => None
|}.

(** The store refuses the connection; all else answers. *)
Definition world_no_store : World := {|
  environ := ∅;
  logger_New := fun _ => None;
  postgres_Connect := fun _ => Some "connection refused";
  nats_NewPubSub := fun _ => None;
  jconfig_NewTracer := fun _ _ => None;
  credentials_NewClientTLSFromFile := fun _ => None;
  grpc_Dial := fun _ _ => None;
  consumers_Start := fun _ => None
|}.

(** The tracer cannot be made, whatever the address; all else answers. *)
Definition world_no_tracer : World := {|
  environ := ∅;
  logger_New := fun _ => None;
  postgres_Connect := fun _ => None;
  nats_NewPubSub := fun _ => None;
  jconfig_NewTracer := fun _ _ => Some "no agent";
  credentials_NewClientTLSFromFile := fun _ => None;
  grpc_Dial := fun _ _ => None;
  consumers_Start := fun _ => None
|}.

(** What [loadConfig] returns when no variable is set. *)
Definition default_config : config := {|
  natsURL := "nats://localhost:4222";
  configPath := "/config.toml";
  logLevel := "error";
  dbConfig := {|
    Host := "localhost"; Port := "5432"; User := "mainflux"; Pass := "mainflux";
    Name := "subscriptions"; SSLMode := "disable"; SSLCert := ""; SSLKey := "";
    SSLRootCert := "" |};
  smppConf := {|
    Address := ""; Username := ""; Password := ""; SystemType := "";
    SourceAddrTON := 0; DestAddrTON := 0; SourceAddrNPI := 0; DestAddrNPI := 0 |};
  from := "";
  httpPort := "8907";
  serverCert := "";
  serverKey := "";
  jaegerURL := "";
  authTLS := false;
  authCACerts := "";
  authURL := "localhost:8181";
  authTimeout := 1000000000
|}.

Definition env_bad_timeout : gmap string string :=
  {[ envAuthTimeout := "soon" ]}.

Definition env_sample : gmap string string :=
  {[ envSmppSrcAddrTON := "5"; envAuthTimeout := "2m"; envHTTPPort := "9000" ]}.

End Main.


(** ** The messages the writer's tests build *)

(** [senml.Message], by the fields the test sets; the five payload fields are
    pointers, [None] standing for [nil]. *)
Module senml.

Import F64.

Record Message : Type := {
  Channel : string;
  Subtopic : string;
  Publisher : string;
  Protocol : string;
  Name : string;
  Unit : string;
  Time : float64;
  UpdateTime : float64;
  Value : option float64;
  StringValue : option string;
  DataValue : option string;
  BoolValue : option bool;
  Sum : option float64
}.

Definition set_Subtopic (x : string) (m : Message) : Message :=
  {| Channel := Channel m; Subtopic := x; Publisher := Publisher m;
     Protocol := Protocol m; Name := Name m; Unit := Unit m; Time := Time m;
     UpdateTime := UpdateTime m; Value := Value m;
     StringValue := StringValue m; DataValue := DataValue m;
     BoolValue := BoolValue m; Sum := Sum m |}.

Definition set_Time (x : float64) (m : Message) : Message :=
  {| Channel := Channel m; Subtopic := Subtopic m; Publisher := Publisher m;
     Protocol := Protocol m; Name := Name m; Unit := Unit m; Time := x;
     UpdateTime := UpdateTime m; Value := Value m;
     StringValue := StringValue m; DataValue := DataValue m;
     BoolValue := BoolValue m; Sum := Sum m |}.

Definition set_Value (x : option float64) (m : Message) : Message :=
  {| Channel := Channel m; Subtopic := Subtopic m; Publisher := Publisher m;
     Protocol := Protocol m; Name := Name m; Unit := Unit m; Time := Time m;
     UpdateTime := UpdateTime m; Value := x;
     StringValue := StringValue m; DataValue := DataValue m;
     BoolValue := BoolValue m; Sum := Sum m |}.

Definition set_StringValue (x : option string) (m : Message) : Message :=
  {| Channel := Channel m; Subtopic := Subtopic m; Publisher := Publisher m;
     Protocol := Protocol m; Name := Name m; Unit := Unit m; Time := Time m;
     UpdateTime := UpdateTime m; Value := Value m;
     StringValue := x; DataValue := DataValue m;
     BoolValue := BoolValue m; Sum := Sum m |}.

Definition set_DataValue (x : option string) (m : Message) : Message :=
  {| Channel := Channel m; Subtopic := Subtopic m; Publisher := Publisher m;
     Protocol := Protocol m; Name := Name m; Unit := Unit m; Time := Time m;
     UpdateTime := UpdateTime m; Value := Value m;
     StringValue := StringValue m; DataValue := x;
     BoolValue := BoolValue m; Sum := Sum m |}.

Definition set_BoolValue (x : option bool) (m : Message) : Message :=
  {| Channel := Channel m; Subtopic := Subtopic m; Publisher := Publisher m;
     Protocol := Protocol m; Name := Name m; Unit := Unit m; Time := Time m;
     UpdateTime := UpdateTime m; Value := Value m;
     StringValue := StringValue m; DataValue := DataValue m;
     BoolValue := x; Sum := Sum m |}.

Definition set_Sum (x : option float64) (m : Message) : Message :=
  {| Channel := Channel m; Subtopic := Subtopic m; Publisher := Publisher m;
     Protocol := Protocol m; Name := Name m; Unit := Unit m; Time := Time m;
     UpdateTime := UpdateTime m; Value := Value m;
     StringValue := StringValue m; DataValue := DataValue m;
     BoolValue := BoolValue m; Sum := x |}.

(** Which payload fields are set, in the test's order: value, boolean,
    string, binary (data), sum. *)
Definition populated (m : Message) : list bool :=
  [ bool_decide (is_Some (Value m)); bool_decide (is_Some (BoolValue m));
    bool_decide (is_Some (StringValue m)); bool_decide (is_Some (DataValue m));
    bool_decide (is_Some (Sum m)) ].

End senml.

(** [json.Message] and [json.Messages]; a payload is a
    [map[string]interface{}], kept as the list of its entries. *)
Module json.

#[local] Unset Elimination Schemes.
Inductive value : Type :=
| Int (z : Z)
| Float (f : F64.float64)
| Str (s : string)
| Bool (b : bool)
| Object (entries : list (string * value)).
#[local] Set Elimination Schemes.

Record Message : Type := {
  Channel : string;
  Created : Z;
  Subtopic : string;
  Publisher : string;
  Protocol : string;
  Payload : list (string * value)
}.

Record Messages : Type := {
  Data : list Message;
  Format : string
}.

Definition set_Payload (p : list (string * value)) (m : Message) : Message :=
  {| Channel := Channel m; Created := Created m; Subtopic := Subtopic m;
     Publisher := Publisher m; Protocol := Protocol m; Payload := p |}.

Definition set_Created (c : Z) (m : Message) : Message :=
  {| Channel := Channel m; Created := c; Subtopic := Subtopic m;
     Publisher := Publisher m; Protocol := Protocol m; Payload := Payload m |}.

End json.

(** ** The consumer pipeline with a storage sink *)

Module writer.

(** The error classes of the specification, and the errors the pipeline and
    the dispatcher return. *)
Inductive ErrorClass : Type :=
| ValidationError
| SinkUnavailable
| SubscriptionLookupFailed
| PartialDeliveryFailure.

Inductive Error : Type :=
| ErrInvalidKey
| ErrSinkUnavailable
| ErrSubscriptionLookupFailed
| ErrPartialDeliveryFailure.

Definition class_of (e : Error) : ErrorClass :=
  match e with
  | ErrInvalidKey => ValidationError
  | ErrSinkUnavailable => SinkUnavailable
  | ErrSubscriptionLookupFailed => SubscriptionLookupFailed
  | ErrPartialDeliveryFailure => PartialDeliveryFailure
  end.

(** What [Consume] is handed: SenML messages or JSON messages. *)
Inductive Batch : Type :=
| SenmlBatch (msgs : list senml.Message)
| JsonBatch (msgs : json.Messages).

(** One record of a batch; a stored row is the record it was written from. *)
Inductive Record_ : Type :=
| SenmlRecord (m : senml.Message)
| JsonRecord (format : string) (m : json.Message).

Definition records (b : Batch) : list Record_ :=
  match b with
  | SenmlBatch msgs => map SenmlRecord msgs
  | JsonBatch msgs => map (JsonRecord (json.Format msgs)) (json.Data msgs)
  end.

(** The storage sink: the rows it holds, oldest first, and whether it can be
    reached.  Modelled from the spec: the storage sink collaborator of section
    6 ([Write(Batch) -> error], append-only), which stands outside the
    repository. *)
Record Sink : Type := { rows : list Record_; reachable : bool }.

Definition Write (s : Sink) (pts : list Record_) : Error + Sink :=
  if reachable s
  then inr {| rows := (rows s ++ pts)%list; reachable := reachable s |}
  else inl ErrSinkUnavailable.

Section Transformer.

(** The field names a payload may not use; the specification names none. *)
Variable reserved : list string.

(** The separator that may not occur in a field name. *)
Definition separator : ascii := "/"%char.

Definition has_separator (key : string) : bool :=
  existsb (Ascii.eqb separator) (list_ascii_of_string key).

Definition key_ok (key : string) : bool :=
  negb (has_separator key) && negb (existsb (String.eqb key) reserved).

(** Every field name of a value, at any depth, is allowed. *)
Fixpoint value_ok (v : json.value) : bool :=
  match v with
  | json.Object entries =>
      (fix entries_ok (es : list (string * json.value)) : bool :=
         match es with
         | [] => true
         | (k, v') :: es' => key_ok k && value_ok v' && entries_ok es'
         end) entries
  | _ => true
  end.

Definition payload_ok (p : list (string * json.value)) : bool :=
  value_ok (json.Object p).

(** Modelled from the spec: the transformer-level validation of a record
    (section 4.1; the transformers are not among the sources).  A record is
    refused for a field name that holds the separator or is reserved; a SenML
    record has no field names of its own. *)
Definition record_ok (r : Record_) : bool :=
  match r with
  | SenmlRecord _ => true
  | JsonRecord _ m => payload_ok (json.Payload m)
  end.

(** The records of a batch as points to write, or the class of the first
    refusal. *)
Fixpoint points (rs : list Record_) : Error + list Record_ :=
  match rs with
  | [] => inr []
  | r :: rs' =>
      if record_ok r then
        match points rs' with
        | inl e => inl e
        | inr pts => inr (r :: pts)
        end
      else inl ErrInvalidKey
  end.

(** Modelled from the spec: [Consume(batch) -> error] of section 4.1 (the
    writer, [consumers/writers/influxdb], is not among the sources).  The
    batch is validated whole before anything is written; a refusal returns the
    invalid-key error and leaves the sink alone; otherwise the batch goes to
    the sink in one write, whose failure is returned. *)
Definition Consume (s : Sink) (b : Batch) : option Error * Sink :=
  match points (records b) with
  | inl e => (Some e, s)
  | inr pts =>
      match Write s pts with
      | inl e => (Some e, s)
      | inr s' => (None, s')
      end
  end.

End Transformer.

(** A field name occurs in a value, at any depth. *)
Inductive key_in (key : string) : json.value -> Prop :=
| key_here entries v :
    In (key, v) entries -> key_in key (json.Object entries)
| key_below entries k v :
    In (k, v) entries -> key_in key v -> key_in key (json.Object entries).

(** A field name the transformer refuses: it holds the separator ['/'], or it
    is one of the reserved names. *)
Definition forbidden (reserved : list string) (key : string) : Prop :=
  In separator (list_ascii_of_string key) \/ In key reserved.

(** A record with a forbidden field name somewhere in its payload. *)
Definition bad_record (reserved : list string) (r : Record_) : Prop :=
  match r with
  | SenmlRecord _ => False
  | JsonRecord _ m =>
      exists key, key_in key (json.Object (json.Payload m)) /\ forbidden reserved key
  end.

Definition empty_sink : Sink := {| rows := []; reachable := true |}.

End writer.

(** The test file of the InfluxDB writer ([src/unnamed/part_000]). *)
Module influxdb_test.

Import F64.

Definition valueFields : Z := 5.
Definition streamsSize : nat := 250.
Definition subtopic : string := "topic".

Definition v : float64 := of_Z 5.
Definition stringV : string := "value".
Definition boolV : bool := true.
Definition dataV : string := "base64".
Definition sum : float64 := of_Z 42.

(** The message [TestSaveSenml] starts each case from. *)
Definition senml_msg : senml.Message := {|
  senml.Channel := "45";
  senml.Subtopic := "";
  senml.Publisher := "2580";
  senml.Protocol := "http";
  senml.Name := "test name";
  senml.Unit := "km";
  senml.Time := S754_zero false;
  senml.UpdateTime := of_Z 5456565466;
  senml.Value := None;
  senml.StringValue := None;
  senml.DataValue := None;
  senml.BoolValue := None;
  senml.Sum := None
|}.

(** One round of the loop [for i := 0; i < tc.msgsNum; i++]: the one message
    [msg] gets the field of this round set, then its time, and a copy of it is
    appended. *)
Definition senml_round (now : Z) (st : senml.Message * list senml.Message) (i : Z)
  : senml.Message * list senml.Message :=
  let '(msg, msgs) := st in
  let count := Z.rem i valueFields in
  let msg :=
    if count =? 0 then senml.set_Value (Some v) (senml.set_Subtopic subtopic msg)
    else if count =? 1 then senml.set_BoolValue (Some boolV) msg
    else if count =? 2 then senml.set_StringValue (Some stringV) msg
    else if count =? 3 then senml.set_DataValue (Some dataV) msg
    else if count =? 4 then senml.set_Sum (Some sum) msg
    else msg in
  let msg :=
    senml.set_Time (sub (div (of_Z now) (of_Z 1000000000)) (of_Z i)) msg in
  (msg, (msgs ++ [msg])%list).

(** The batch of [msgsNum] messages built at the time [now] (in nanoseconds). *)
Definition senml_msgs (now : Z) (msgsNum : nat) : list senml.Message :=
  snd (fold_left (senml_round now) (map Z.of_nat (seq 0 msgsNum)) (senml_msg, [])).

(** The payload fields set on the [k]-th message of the loop (from 0), in the
    order of [senml.populated]: the fields of the rounds up to [k]. *)
Definition cumulative (k : nat) : list bool :=
  [ true; (1 <=? k)%nat; (2 <=? k)%nat; (3 <=? k)%nat; (4 <=? k)%nat ].

(** What the one message of the loop carries before round [i]. *)
Definition carried (i : nat) : list bool :=
  match i with
  | O => [false; false; false; false; false]
  | S j => cumulative j
  end.


(** The JSON messages of [TestSaveJSON]; the two identifiers are random, the
    time is the clock's. *)
Section SaveJSON.

Variables (chid pubid : string) (created now : Z).

Definition float_12_344 : float64 := div (of_Z 12344) (of_Z 1000).

Definition msg : json.Message := {|
  json.Channel := chid;
  json.Publisher := pubid;
  json.Created := created;
  json.Subtopic := "subtopic/format/json";
  json.Protocol := "mqtt";
  json.Payload :=
    [ ("field_1", json.Int 123);
      ("field_2", json.Str "value");
      ("field_3", json.Bool false);
      ("value", json.Float float_12_344);
      ("field_5", json.Object [ ("field_2", json.Int 42) ]);
      ("deviceName", json.Str "device-123");
      ("measurement", json.Str "lighting") ]
|}.

Definition invalidKeySepMsg : json.Message :=
  json.set_Payload
    [ ("field_1", json.Int 123);
      ("field_2", json.Str "value");
      ("field_3", json.Bool false);
      ("field_4", json.Float float_12_344);
      ("field_5", json.Object [ ("field_1", json.Str "value");
                                ("field_2", json.Int 42) ]);
      ("field_6/field_7", json.Str "value") ]
    msg.

Definition invalidKeyNameMsg : json.Message :=
  json.set_Payload
    [ ("field_1", json.Int 123);
      ("field_2", json.Str "value");
      ("field_3", json.Bool false);
      ("field_4", json.Float float_12_344);
      ("field_5", json.Object [ ("field_1", json.Str "value");
                                ("field_2", json.Int 42) ]);
      ("publisher", json.Str "value") ]
    msg.

(** The loop that fills the three batches: only the valid message gets a time
    of its own. *)
Definition json_data (i : nat) : list json.Message :=
  map (fun i => json.set_Created (time.int64 (now + Z.of_nat i)) msg) (seq 0 i).

Definition msgs : json.Messages :=
  {| json.Data := json_data streamsSize; json.Format := "json" |}.

Definition invalidKeySepMsgs : json.Messages :=
  {| json.Data := repeat invalidKeySepMsg streamsSize; json.Format := "json" |}.

Definition invalidKeyNameMsgs : json.Messages :=
  {| json.Data := repeat invalidKeyNameMsg streamsSize; json.Format := "json" |}.

(** The cases of [TestSaveJSON], each with the error it expects; the third is
    named for the invalid key name and consumes the batch of the second. *)
Definition json_cases : list (string * json.Messages * option writer.Error) :=
  [ ("consume valid json messages", msgs, None);
    ("consume invalid json messages containing invalid key separator",
     invalidKeySepMsgs, Some writer.ErrInvalidKey);
    ("consume invalid json messages containing invalid key name",
     invalidKeySepMsgs, Some writer.ErrInvalidKey) ].

End SaveJSON.

(** The loop over the cases: consume, then count the rows; each case sees the
    sink the one before left. *)
Fixpoint run_cases (consume : writer.Sink -> writer.Batch -> option writer.Error * writer.Sink)
  (s : writer.Sink) (cases : list (string * json.Messages * option writer.Error))
  : list (option writer.Error * nat) :=
  match cases with
  | [] => []
  | (_, batch, _) :: cases' =>
      let '(err, s') := consume s (writer.JsonBatch batch) in
      (err, length (writer.rows s')) :: run_cases consume s' cases'
  end.

(** A batch of two: the valid message, then the one with the reserved name. *)
Definition mixed_batch : writer.Batch :=
  writer.JsonBatch
    {| json.Data := [ msg "ch" "pub" 0; invalidKeyNameMsg "ch" "pub" 0 ];
       json.Format := "json" |}.

End influxdb_test.


(** ** The notification dispatcher *)

Module notifiers.

Import F64.

(** A subscription: a topic filter, the contact to notify, and its owner. *)
Record Subscription : Type := {
  sub_topic : string;
  sub_contact : string;
  sub_owner : string
}.

(** The payload of a record: exactly one of the five variants. *)
Inductive Payload : Type :=
| Numeric (v : float64)
| Boolean (b : bool)
| Text (s : string)
| Binary (data : string)
| RunningSum (v : float64).

Record Record_ : Type := {
  topic : string;
  publisher : string;
  protocol : string;
  timestamp : float64;
  unit_ : string;
  payload : Payload
}.

(** How a send can fail, and what became of one delivery. *)
Inductive SendError : Type := Transient | Permanent.

Inductive Outcome : Type := Sent | PermanentlyFailed | TransientlyFailed.

Definition outcome_of (err : option SendError) : Outcome :=
  match err with
  | None => Sent
  | Some Permanent => PermanentlyFailed
  | Some Transient => TransientlyFailed
  end.

Definition is_sent (o : Outcome) : bool :=
  match o with Sent => true | _ => false end.

(** The two collaborators of the dispatcher, as it consumes them: the store
    answers with the subscriptions that match a topic, or fails; the channel
    sends a body to a destination, or fails, and moves on either way. *)
Class SubscriptionStore (S : Type) : Type :=
  FindByTopic : S -> string -> writer.Error + list Subscription.

Class NotificationChannel (C : Type) : Type :=
  Send : C -> string -> string -> option SendError * C.

(** One call of [Send] and what came of it. *)
Record Delivery : Type := {
  to : Subscription;
  body : string;
  outcome : Outcome
}.

Definition failures (ds : list Delivery) : nat :=
  length (List.filter (fun d => negb (is_sent (outcome d))) ds).


Section Dispatcher.

Context {S C : Type} {store : SubscriptionStore S} {channel : NotificationChannel C}.

(** The rendering of a record as a notification body; the specification fixes
    no format. *)
Variable render : Record_ -> string.

(** Step 3: one [Send] for each resolved subscription, in order, whatever the
    sends before came to. *)
Fixpoint dispatch (ch : C) (text : string) (subs : list Subscription)
  : list Delivery * C :=
  match subs with
  | [] => ([], ch)
  | sub :: subs' =>
      let '(err, ch1) := Send ch (sub_contact sub) text in
      let '(ds, ch2) := dispatch ch1 text subs' in
      ({| to := sub; body := text; outcome := outcome_of err |} :: ds, ch2)
  end.

(** The aggregate result: no error when every send went through, the partial
    failure when some but not all failed, the channel's failure when all did. *)
Definition aggregate (ds : list Delivery) : option writer.Error :=
  if (failures ds =? 0)%nat then None
  else if (failures ds <? length ds)%nat then Some writer.ErrPartialDeliveryFailure
  else Some writer.ErrSinkUnavailable.

(** Modelled from the spec: [Notify(record) -> error] of section 4.2 (the
    notifiers service is not among the sources): resolve the subscriptions of
    the record's topic, render the body, send to each, collect the failures.
    The result is the aggregate error, the deliveries made, and the channel
    after them; a failed lookup aborts the dispatch. *)
Definition Notify (st : S) (ch : C) (r : Record_)
  : option writer.Error * list Delivery * C :=
  match FindByTopic st (topic r) with
  | inl _ => (Some writer.ErrSubscriptionLookupFailed, [], ch)
  | inr subs =>
      let '(ds, ch') := dispatch ch (render r) subs in
      (aggregate ds, ds, ch')
  end.

End Dispatcher.

(** *** A store and a channel to run the dispatcher with *)

(** A topic filter matches its own topic and every topic below it. *)
Definition matches (filter_ topic_ : string) : bool :=
  String.eqb filter_ topic_ || String.prefix (filter_ +:+ "/") topic_.

(** A store in memory: the subscriptions it holds. *)
Record MemStore : Type := { held : list Subscription }.

#[global] Instance MemStore_store : SubscriptionStore MemStore :=
  fun st topic_ =>
    inr (List.filter (fun sub => matches (sub_topic sub) topic_) (held st)).

(** A gateway that records every call, refuses the destinations of one list
    for good, and delivers to all others. *)
Record Gateway : Type := {
  calls : list (string * string);
  delivered : list (string * string);
  refused : list string
}.

#[global] Instance Gateway_channel : NotificationChannel Gateway :=
  fun g dest text =>
    if existsb (String.eqb dest) (refused g)
    then (Some Permanent,
          {| calls := (calls g ++ [(dest, text)])%list;
             delivered := delivered g;
             refused := refused g |})
    else (None,
          {| calls := (calls g ++ [(dest, text)])%list;
             delivered := (delivered g ++ [(dest, text)])%list;
             refused := refused g |}).

Definition sample_render (r : Record_) : string := topic r +:+ " " +:+ unit_ r.

Definition sample_record : Record_ := {|
  topic := "alerts/temp";
  publisher := "2580";
  protocol := "mqtt";
  timestamp := of_Z 1700000000;
  unit_ := "C";
  payload := Numeric (of_Z 42)
|}.

Definition sample_store : MemStore := {|
  held :=
    [ {| sub_topic := "alerts/temp"; sub_contact := "15550000"; sub_owner := "a" |};
      {| sub_topic := "alerts"; sub_contact := "15550001"; sub_owner := "b" |};
      {| sub_topic := "other"; sub_contact := "15550002"; sub_owner := "a" |};
      {| sub_topic := "alerts/temp"; sub_contact := "15550003"; sub_owner := "c" |} ]
|}.

Definition sample_gateway : Gateway :=
  {| calls := []; delivered := []; refused := ["15550001"] |}.

End notifiers.

(** ** The rest of [main.go]: the HTTP server, and names for stating what
    [loadConfig] and [main] do *)

Module Server.

Import Main.

(** [net/http] as [startHTTPServer] uses it: a listener blocks until it fails
    and returns that error, here by its text, for the address (and the
    certificate and key files) it is given. *)
Record HTTP : Type := {
  ListenAndServe : string -> string;
  ListenAndServeTLS : string -> string -> string -> string
}.

(** [startHTTPServer]: the value it sends on [errs] is its result. *)
Definition startHTTPServer (h : HTTP) (port certFile keyFile : string) : M string :=
  let p := ":" +:+ port in
  if negb (String.eqb certFile "") || negb (String.eqb keyFile "") then
    logger_Info
      "SMPP notifier service started using https, cert %s key %s, exposed port %s"
      [AStr certFile; AStr keyFile; AStr port] ;;;
    ret (ListenAndServeTLS h p certFile keyFile)
  else
    logger_Info "SMPP notifier service started using http, exposed port %s"
      [AStr port] ;;;
    ret (ListenAndServe h p).

(** The six variables [loadConfig] parses, in the order it parses them, each
    with the test its value has to pass. *)
Definition parsed_settings : list (string * (string -> bool)) :=
  [ (envAuthTimeout, duration_ok);
    (envAuthTLS, bool_ok);
    (envSmppSrcAddrTON, uint8_ok);
    (envSmppDstAddrTON, uint8_ok);
    (envSmppSrcAddrNPI, uint8_ok);
    (envSmppDstAddrNPI, uint8_ok) ].

(** Every variable [loadConfig] reads. *)
Definition config_variables : list string :=
  (map fst parsed_settings ++ map (fun s => fst (fst s)) string_settings)%list.

(** The values of [MF_AUTH_CLIENT_TLS] that turn TLS on. *)
Definition true_spellings : list string :=
  ["1"; "t"; "T"; "true"; "TRUE"; "True"].

(** The tracer [initJaeger] returns for a service and a URL when it returns. *)
Definition tracer_for (svcName url : string) : Tracer :=
  if String.eqb url "" then NoopTracer else JaegerTracer svcName url.

(** The lines [main] can write at boot. *)
Definition not_encrypted : entry :=
  {| lvl := LevelInfo; format := "gRPC communication is not encrypted"; args := [] |}.

Definition postgres_failed (err : string) : entry :=
  {| lvl := LevelError; format := "Failed to connect to postgres: %s";
     args := [AErr err] |}.

Definition nats_failed (err : string) : entry :=
  {| lvl := LevelError; format := "Failed to connect to NATS: %s";
     args := [AErr err] |}.

Definition start_failed (err : string) : entry :=
  {| lvl := LevelError; format := "Failed to create Postgres writer: %s";
     args := [AErr err] |}.

(** *** Sample surroundings *)

Definition sample_http : HTTP := {|
  ListenAndServe := fun addr => "listen " +:+ addr;
  ListenAndServeTLS := fun addr cert key => "listen tls " +:+ addr
|}.

(** TLS towards the auth service, with no file of CA certificates. *)
Definition config_tls_no_ca : config := {|
  natsURL := natsURL default_config;
  configPath := configPath default_config;
  logLevel := logLevel default_config;
  dbConfig := dbConfig default_config;
  smppConf := smppConf default_config;
  from := from default_config;
  httpPort := httpPort default_config;
  serverCert := serverCert default_config;
  serverKey := serverKey default_config;
  jaegerURL := jaegerURL default_config;
  authTLS := true;
  authCACerts := "";
  authURL := authURL default_config;
  authTimeout := authTimeout default_config
|}.

(** The store and the bus both refuse; all else answers. *)
Definition world_no_store_no_bus : World := {|
  environ := ∅;
  logger_New := fun _ => None;
  postgres_Connect := fun _ => Some "connection refused";
  nats_NewPubSub := fun _ => Some "no servers";
  jconfig_NewTracer := fun _ _ => None;
  credentials_NewClientTLSFromFile := fun _ => None;
  grpc_Dial := fun _ _ => None;
  consumers_Start := fun _ => None
|}.

(** The bus refuses; the consumer cannot start either. *)
Definition world_no_bus : World := {|
  environ := ∅;
  logger_New := fun _ => None;
  postgres_Connect := fun _ => None;
  nats_NewPubSub := fun _ => Some "no servers";
  jconfig_NewTracer := fun _ _ => None;
  credentials_NewClientTLSFromFile := fun _ => None;
  grpc_Dial := fun _ _ => None;
  consumers_Start := fun _ => Some "no config"
|}.

(** All answers but [consumers.Start]; a Jaeger agent is configured. *)
Definition world_no_consumer : World := {|
  environ := {[ envJaegerURL := "localhost:6831" ]};
  logger_New := fun _ => None;
  postgres_Connect := fun _ => None;
  nats_NewPubSub := fun _ => None;
  jconfig_NewTracer := fun _ _ => None;
  credentials_NewClientTLSFromFile := fun _ => None;
  grpc_Dial := fun _ _ => None;
  consumers_Start := fun _ => Some "no config"
|}.

Definition env_two_bad : gmap string string :=
  {[ envAuthTLS := "yes"; envSmppDstAddrNPI := "300"; envSmppSrcAddrTON := "7" ]}.

End Server.

(** ** Names for stating what the tests' loops build *)

Module batches.

Import F64.

(** The fields [TestSaveSenml] sets once, before the loop. *)
Definition header (m : senml.Message) : Prop :=
  senml.Channel m = "45" /\ senml.Publisher m = "2580"
  /\ senml.Protocol m = "http" /\ senml.Name m = "test name"
  /\ senml.Unit m = "km" /\ senml.UpdateTime m = of_Z 5456565466.

(** [float64(now)/float64(1e9) - float64(k)]. *)
Definition time_of (now : Z) (k : nat) : float64 :=
  sub (div (of_Z now) (of_Z 1000000000)) (of_Z (Z.of_nat k)).

End batches.

(** ** Names for stating what the pipeline stores and what the dispatcher
    sends *)

Module stored.


(** A sink that holds nothing and cannot be reached. *)
Definition sink_down : writer.Sink := {| writer.rows := []; writer.reachable := false |}.

(** The sink after a batch of points has been appended to it. *)
Definition appended (s : writer.Sink) (pts : list writer.Record_) : writer.Sink :=
  {| writer.rows := (writer.rows s ++ pts)%list; writer.reachable := writer.reachable s |}.

End stored.

Module sends.

Import notifiers.

Section Channel.

Context {C : Type} {channel : NotificationChannel C}.




End Channel.



(** A gateway out of order: every send fails for now. *)
Record Outage : Type := { attempts : nat }.

#[global] Instance Outage_channel : NotificationChannel Outage :=
  fun o _ _ => (Some Transient, {| attempts := S (attempts o) |}).

End sends.
(** * Properties *)

Example ParseUint_7 : strconv.ParseUint "007" 10 8 = (7, None).
Proof. reflexivity. Qed.

Example ParseUint_256 : strconv.ParseUint "256" 10 8 = (255, Some strconv.ErrRange).
Proof. reflexivity. Qed.

Example ParseUint_plus : strconv.ParseUint "+1" 10 8 = (0, Some strconv.ErrSyntax).
Proof. reflexivity. Qed.

Example ParseDuration_1s : time.ParseDuration "1s" = (1000000000, None).
Proof. vm_compute. reflexivity. Qed.

Example ParseDuration_1h30 : time.ParseDuration "-1.5h30m" = (-7200000000000, None).
Proof. vm_compute. reflexivity. Qed.

Example ParseDuration_frac : time.ParseDuration "0.001ms" = (1000, None).
Proof. vm_compute. reflexivity. Qed.

Example ParseDuration_bare : time.ParseDuration "15" = (0, Some (time.MissingUnit "15")).
Proof. vm_compute. reflexivity. Qed.

Example loadConfig_defaults :
  Main.loadConfig ∅ [] = (Main.Return Main.default_config, []).
Proof. vm_compute. reflexivity. Qed.

Example loadConfig_sample :
  exists cfg,
    Main.loadConfig Main.env_sample [] = (Main.Return cfg, [])
    /\ Main.SourceAddrTON (Main.smppConf cfg) = 5
    /\ Main.authTimeout cfg = 120000000000
    /\ Main.httpPort cfg = "9000".
Proof. eexists. vm_compute. repeat split. Qed.

Example loadConfig_bad_timeout :
  Main.loadConfig Main.env_bad_timeout [] =
  (Main.Exit 1,
   [ {| Main.lvl := Main.StdLog; Main.format := "Invalid %s value: %s";
        Main.args := [Main.AStr "MF_AUTH_GRPC_TIMEOUT";
                      Main.ADurationErr (time.InvalidDuration "soon")] |} ]).
Proof. vm_compute. reflexivity. Qed.

Example ParseDuration_empty : time.ParseDuration "" = (0, Some (time.InvalidDuration "")).
Proof. vm_compute. reflexivity. Qed.

(** ** What [ParseUint(s, 10, 8)] accepts *)

Module strconv_facts.

Import strconv.

Lemma decimal_mono s : forall acc v, 0 <= acc -> decimal s acc = Some v -> acc <= v.
Proof.
  induction s as [|c s IH]; simpl; intros acc v Hacc H.
  - injection H as <-. lia.
  - destruct ((48 <=? byte_of c) && (byte_of c <=? 57)) eqn:Hd; [|discriminate].
    apply andb_prop in Hd as [H1 H2].
    apply Z.leb_le in H1. apply Z.leb_le in H2.
    apply IH in H; lia.
Qed.

Lemma digit_of_digit b :
  48 <= b <= 57 -> digit_of b = Some (b - 48).
Proof.
  intros [H1 H2]. unfold digit_of.
  apply Z.leb_le in H1. apply Z.leb_le in H2.
  now rewrite H1, H2.
Qed.

Lemma digit_of_other b d :
  ~ (48 <= b <= 57) -> digit_of b = Some d -> 10 <= d.
Proof.
  intros Hb. unfold digit_of.
  destruct ((48 <=? b) && (b <=? 57)) eqn:Hd.
  - apply andb_prop in Hd as [H1 H2].
    apply Z.leb_le in H1. apply Z.leb_le in H2. lia.
  - destruct ((97 <=? lower b) && (lower b <=? 122)) eqn:Hl; [|discriminate].
    apply andb_prop in Hl as [H1 _]. apply Z.leb_le in H1.
    intros H. injection H as <-. lia.
Qed.

(** The loop agrees with the decimal reading as long as the accumulator stays
    within 8 bits, and stops with an error as soon as it would not. *)
Lemma parseUintLoop_decimal cutoff s :
  255 < cutoff ->
  forall n, 0 <= n <= 255 ->
  match decimal s n with
  | Some v =>
      if v <=? 255 then parseUintLoop 10 cutoff 255 s n = (v, None)
      else snd (parseUintLoop 10 cutoff 255 s n) <> None
  | None => snd (parseUintLoop 10 cutoff 255 s n) <> None
  end.
Proof.
  intros Hcut. induction s as [|c s IH]; intros n Hn; simpl.
  - destruct (n <=? 255) eqn:E; [reflexivity|]. apply Z.leb_gt in E. lia.
  - destruct ((48 <=? byte_of c) && (byte_of c <=? 57)) eqn:Hd.
    + apply andb_prop in Hd as [H1 H2].
      apply Z.leb_le in H1. apply Z.leb_le in H2.
      rewrite digit_of_digit by lia.
      replace (10 <=? byte_of c - 48) with false by (symmetry; apply Z.leb_gt; lia).
      replace (cutoff <=? n) with false by (symmetry; apply Z.leb_gt; lia).
      rewrite (Z.mod_small (n * 10)) by lia.
      rewrite (Z.mod_small (n * 10 + _)) by lia.
      replace (n * 10 + (byte_of c - 48) <? n * 10) with false
        by (symmetry; apply Z.ltb_ge; lia).
      simpl. replace (10 * n) with (n * 10) by lia.
      destruct (255 <? n * 10 + (byte_of c - 48)) eqn:Hbig.
      * apply Z.ltb_lt in Hbig.
        destruct (decimal s (n * 10 + (byte_of c - 48))) as [v|] eqn:Hv;
          [|simpl; discriminate].
        apply decimal_mono in Hv; [|lia].
        replace (v <=? 255) with false by (symmetry; apply Z.leb_gt; lia).
        simpl. discriminate.
      * apply Z.ltb_ge in Hbig. apply IH. lia.
    + assert (Hb : ~ (48 <= byte_of c <= 57)).
      { intros [H1 H2]. apply Z.leb_le in H1. apply Z.leb_le in H2.
        rewrite H1, H2 in Hd. discriminate. }
      destruct (digit_of (byte_of c)) as [d|] eqn:Hdig; [|simpl; discriminate].
      apply digit_of_other in Hdig; [|exact Hb].
      replace (10 <=? d) with true by (symmetry; apply Z.leb_le; lia).
      simpl. discriminate.
Qed.

(** [ParseUint(s, 10, 8)] returns no error exactly on the base-10 unsigned
    integers that fit in 8 bits, and then returns their value. *)
Lemma ParseUint_10_8 s :
  match decimal_uint8 s with
  | Some n => ParseUint s 10 8 = (n, None) /\ 0 <= n <= 255
  | None => snd (ParseUint s 10 8) <> None
  end.
Proof.
  unfold decimal_uint8, ParseUint.
  destruct (String.eqb s "") eqn:Hs; [simpl; discriminate|].
  change (Z.shiftl 1 8 - 1) with 255.
  pose proof (parseUintLoop_decimal (maxUint64 / 10 + 1) s) as H.
  assert (Hcut : 255 < maxUint64 / 10 + 1) by (vm_compute; reflexivity).
  specialize (H Hcut 0 ltac:(lia)).
  destruct (decimal s 0) as [v|] eqn:Hv; [|exact H].
  destruct (v <=? 255) eqn:Hle; [|exact H].
  split; [exact H|]. apply decimal_mono in Hv; [|lia].
  apply Z.leb_le in Hle. lia.
Qed.

End strconv_facts.

(** ** [ParseDuration]'s loop ends *)

Module time_facts.

Import time.

Lemma leadingInt_loop_rem s : forall x v r,
  leadingInt_loop s x = (v, r, false) -> (String.length r <= String.length s)%nat.
Proof.
  induction s as [|c s IH]; simpl; intros x v r H.
  - injection H as _ <-. simpl. lia.
  - destruct (is_digit c).
    + destruct (2 ^ 63 / 10 <? x); [discriminate|].
      destruct (2 ^ 63 <? u64 (x * 10 + strconv.byte_of c - 48)); [discriminate|].
      apply IH in H. lia.
    + injection H as _ <-. simpl. lia.
Qed.

Lemma leadingFraction_loop_rem s : forall x sc o f sc' r,
  leadingFraction_loop s x sc o = (f, sc', r) ->
  (String.length r <= String.length s)%nat.
Proof.
  induction s as [|c s IH]; simpl; intros x sc o f sc' r H.
  - injection H as _ _ <-. simpl. lia.
  - destruct (is_digit c).
    + destruct o; [apply IH in H; lia|].
      destruct ((2 ^ 63 - 1) / 10 <? x); [apply IH in H; lia|].
      destruct (2 ^ 63 <? u64 (x * 10 + strconv.byte_of c - 48));
        apply IH in H; lia.
    + injection H as _ _ <-. simpl. lia.
Qed.

Lemma splitUnit_length s : forall u r,
  splitUnit s = (u, r) ->
  String.length s = (String.length u + String.length r)%nat.
Proof.
  induction s as [|c s IH]; simpl; intros u r H.
  - injection H as <- <-. reflexivity.
  - destruct (is_dot c || is_digit c).
    + injection H as <- <-. reflexivity.
    + destruct (splitUnit s) as [u0 r0] eqn:E.
      injection H as <- <-. simpl. rewrite (IH u0 r0 eq_refl). reflexivity.
Qed.

(** A round that goes on has consumed at least the unit's first byte. *)
Lemma parseStep_shrinks orig c t d s' d' :
  parseStep orig (String c t) d = inr (s', d') ->
  (String.length s' < String.length (String c t))%nat.
Proof.
  unfold parseStep. set (s := String c t).
  destruct (negb (is_dot c || is_digit c)); [discriminate|].
  destruct (leadingInt s) as [[v s1] err] eqn:Hint.
  destruct err; [discriminate|].
  apply leadingInt_loop_rem in Hint.
  assert (Hfrac : forall f sc s2 post,
    match s1 with
    | String c1 t1 =>
        if is_dot c1 then
          let '(f, scale, r) := leadingFraction t1 in
          (f, scale, r, negb (Nat.eqb (String.length t1) (String.length r)))
        else (0, F64.of_Z 1, s1, false)
    | EmptyString => (0, F64.of_Z 1, s1, false)
    end = (f, sc, s2, post) -> (String.length s2 <= String.length s1)%nat).
  { intros f sc s2 post. destruct s1 as [|c1 t1].
    - intros H. injection H as _ _ <- _. lia.
    - destruct (is_dot c1).
      + destruct (leadingFraction t1) as [[f0 sc0] r0] eqn:Hf.
        intros H. injection H as _ _ <- _.
        apply leadingFraction_loop_rem in Hf. simpl. lia.
      + intros H. injection H as _ _ <- _. lia. }
  destruct (match s1 with EmptyString => _ | String _ _ => _ end)
    as [[[f sc] s2] post] eqn:Hmid.
  specialize (Hfrac f sc s2 post eq_refl). clear Hmid.
  destruct (negb (negb (Nat.eqb (String.length s) (String.length s1))) && negb post);
    [discriminate|].
  destruct (splitUnit s2) as [u s3] eqn:Hu.
  apply splitUnit_length in Hu.
  destruct (String.eqb u "") eqn:Hne; [discriminate|].
  assert (String.length u <> 0%nat).
  { destruct u; [discriminate|simpl; lia]. }
  destruct (lookupUnit unitMap u) as [unit|]; [|discriminate].
  destruct (2 ^ 63 / unit <? v); [discriminate|].
  match goal with |- (if ?b then _ else _) = _ -> _ => destruct b end;
    [discriminate|].
  match goal with |- (if ?b then _ else _) = _ -> _ => destruct b end;
    [discriminate|].
  intros H0. injection H0 as <- _. lia.
Qed.

(** With fuel for every byte of the input the loop never runs out. *)
Lemma parseLoop_fuel orig fuel : forall s d,
  (String.length s <= fuel)%nat -> parseLoop fuel orig s d <> None.
Proof.
  induction fuel as [|fuel IH]; intros s d Hlen.
  - destruct s; simpl in *; [discriminate|lia].
  - destruct s as [|c t]; [simpl; discriminate|].
    change (parseLoop (S fuel) orig (String c t) d)
      with (match parseStep orig (String c t) d with
            | inl e => Some (inl e)
            | inr (s', d') => parseLoop fuel orig s' d'
            end).
    destruct (parseStep orig (String c t) d) as [e|[s' d']] eqn:Hstep;
      [discriminate|].
    apply parseStep_shrinks in Hstep. apply IH. simpl in *. lia.
Qed.

End time_facts.

(** ** [loadConfig] *)

Module Main_facts.

Import Main.

Lemma Env_unset environ key def :
  Getenv environ key = "" -> Env environ key def = def.
Proof. unfold Env. intros ->. reflexivity. Qed.

Lemma Env_set environ key def :
  Getenv environ key <> "" -> Env environ key def = Getenv environ key.
Proof.
  unfold Env. intros H.
  destruct (String.eqb (Getenv environ key) "") eqn:E; [|reflexivity].
  apply String.eqb_eq in E. contradiction.
Qed.

(** A default that parses: the value read fails to parse exactly when the
    variable is set to something that does not. *)
Lemma unparsable_Env environ key def ok :
  ok def = true -> negb (ok (Env environ key def)) = unparsable environ key ok.
Proof.
  unfold unparsable, Env. intros Hdef.
  destruct (String.eqb (Getenv environ key) ""); simpl; [now rewrite Hdef|reflexivity].
Qed.

Lemma parseAddr_run environ key def out :
  parseAddr environ key def out =
  match strconv.decimal_uint8 (Env environ key def) with
  | Some n => (Return n, out)
  | None => (Exit 1, (out ++ [invalid_value key])%list)
  end.
Proof.
  unfold parseAddr.
  pose proof (strconv_facts.ParseUint_10_8 (Env environ key def)) as H.
  destruct (strconv.decimal_uint8 (Env environ key def)) as [n|].
  - destruct H as [-> _]. reflexivity.
  - destruct (strconv.ParseUint (Env environ key def) 10 8) as [n [e|]];
      [reflexivity|]. simpl in H. contradiction.
Qed.

Lemma uint8_small n : 0 <= n <= 255 -> uint8 n = n.
Proof. intros H. unfold uint8. apply Z.mod_small. lia. Qed.

Lemma duration_ok_def : duration_ok defAuthTimeout = true.
Proof. vm_compute. reflexivity. Qed.

Lemma bool_ok_def : bool_ok defAuthTLS = true.
Proof. reflexivity. Qed.

Lemma uint8_ok_def : uint8_ok "0" = true.
Proof. reflexivity. Qed.

(** [loadConfig] either exits with status 1 after one line of [log.Fatalf], or
    returns the configuration read, writing nothing. *)
Lemma loadConfig_cases environ out :
  (config_fatal environ = true /\
   exists e, loadConfig environ out = (Exit 1, (out ++ [e])%list) /\ lvl e = StdLog)
  \/
  (config_fatal environ = false /\
   exists d b n1 n2 n3 n4,
     time.ParseDuration (Env environ envAuthTimeout defAuthTimeout) = (d, None) /\
     strconv.ParseBool (Env environ envAuthTLS defAuthTLS) = (b, None) /\
     strconv.decimal_uint8 (Env environ envSmppSrcAddrTON defSmppSrcAddrTON) = Some n1 /\
     strconv.decimal_uint8 (Env environ envSmppDstAddrTON defSmppDstAddrTON) = Some n2 /\
     strconv.decimal_uint8 (Env environ envSmppSrcAddrNPI defSmppSrcAddrNPI) = Some n3 /\
     strconv.decimal_uint8 (Env environ envSmppDstAddrNPI defSmppDstAddrNPI) = Some n4 /\
     loadConfig environ out =
       (Return {|
          logLevel := Env environ envLogLevel defLogLevel;
          natsURL := Env environ envNatsURL defNatsURL;
          configPath := Env environ envConfigPath defConfigPath;
          dbConfig := {|
            Host := Env environ envDBHost defDBHost;
            Port := Env environ envDBPort defDBPort;
            User := Env environ envDBUser defDBUser;
            Pass := Env environ envDBPass defDBPass;
            Name := Env environ envDB defDB;
            SSLMode := Env environ envDBSSLMode defDBSSLMode;
            SSLCert := Env environ envDBSSLCert defDBSSLCert;
            SSLKey := Env environ envDBSSLKey defDBSSLKey;
            SSLRootCert := Env environ envDBSSLRootCert defDBSSLRootCert |};
          smppConf := {|
            Address := Env environ envSmppAddress defSmppAddress;
            Username := Env environ envSmppUsername defSmppUsername;
            Password := Env environ envSmppPassword defSmppPassword;
            SystemType := Env environ envSmppSystemType defSmppSystemType;
            SourceAddrTON := uint8 n1;
            DestAddrTON := uint8 n2;
            SourceAddrNPI := uint8 n3;
            DestAddrNPI := uint8 n4 |};
          from := Env environ envFrom defFrom;
          httpPort := Env environ envHTTPPort defHTTPPort;
          serverCert := Env environ envServerCert defServerCert;
          serverKey := Env environ envServerKey defServerKey;
          jaegerURL := Env environ envJaegerURL defJaegerURL;
          authTLS := b;
          authCACerts := Env environ envAuthCACerts defAuthCACerts;
          authURL := Env environ envAuthURL defAuthURL;
          authTimeout := d |}, out)).
Proof.
  unfold config_fatal.
  rewrite <- (unparsable_Env environ envAuthTimeout defAuthTimeout _ duration_ok_def).
  rewrite <- (unparsable_Env environ envAuthTLS defAuthTLS _ bool_ok_def).
  rewrite <- (unparsable_Env environ envSmppSrcAddrTON defSmppSrcAddrTON _ uint8_ok_def).
  rewrite <- (unparsable_Env environ envSmppDstAddrTON defSmppDstAddrTON _ uint8_ok_def).
  rewrite <- (unparsable_Env environ envSmppSrcAddrNPI defSmppSrcAddrNPI _ uint8_ok_def).
  rewrite <- (unparsable_Env environ envSmppDstAddrNPI defSmppDstAddrNPI _ uint8_ok_def).
  unfold loadConfig, bind, duration_ok, bool_ok, uint8_ok.
  destruct (time.ParseDuration (Env environ envAuthTimeout defAuthTimeout))
    as [d [err|]]; simpl.
  { left. split; [reflexivity|]. eexists. split; reflexivity. }
  destruct (strconv.ParseBool (Env environ envAuthTLS defAuthTLS)) as [b [err|]]; simpl.
  { left. split; [reflexivity|]. eexists. split; reflexivity. }
  rewrite parseAddr_run.
  destruct (strconv.decimal_uint8 (Env environ envSmppSrcAddrTON defSmppSrcAddrTON))
    as [n1|]; simpl.
  2: { left. split; [reflexivity|]. eexists. split; reflexivity. }
  rewrite parseAddr_run.
  destruct (strconv.decimal_uint8 (Env environ envSmppDstAddrTON defSmppDstAddrTON))
    as [n2|]; simpl.
  2: { left. split; [reflexivity|]. eexists. split; reflexivity. }
  rewrite parseAddr_run.
  destruct (strconv.decimal_uint8 (Env environ envSmppSrcAddrNPI defSmppSrcAddrNPI))
    as [n3|]; simpl.
  2: { left. split; [reflexivity|]. eexists. split; reflexivity. }
  rewrite parseAddr_run.
  destruct (strconv.decimal_uint8 (Env environ envSmppDstAddrNPI defSmppDstAddrNPI))
    as [n4|]; simpl.
  2: { left. split; [reflexivity|]. eexists. split; reflexivity. }
  right. split; [reflexivity|].
  exists d, b, n1, n2, n3, n4. repeat split; reflexivity.
Qed.

Lemma initJaeger_empty w svcName out :
  initJaeger w svcName "" out = (Return (NoopTracer, NopCloser), out).
Proof. reflexivity. Qed.

(** [initJaeger] exits, with status 1, exactly when the URL is set and the
    tracer cannot be made. *)
Lemma initJaeger_cases w svcName cfg out :
  (tracer_fails w svcName cfg = true /\
   exists e, initJaeger w svcName (jaegerURL cfg) out = (Exit 1, (out ++ [e])%list))
  \/
  (tracer_fails w svcName cfg = false /\
   exists tc, initJaeger w svcName (jaegerURL cfg) out = (Return tc, out)).
Proof.
  unfold tracer_fails, initJaeger.
  destruct (String.eqb (jaegerURL cfg) ""); simpl.
  - right. split; [reflexivity|]. eexists. reflexivity.
  - destruct (jconfig_NewTracer w svcName (jaegerURL cfg)); simpl.
    + left. split; [reflexivity|]. eexists. reflexivity.
    + right. split; [reflexivity|]. eexists. reflexivity.
Qed.

Lemma connectToAuth_cases w cfg tracer out :
  (auth_unreachable w cfg = true /\
   exists out', connectToAuth w cfg tracer out = (Exit 1, out'))
  \/
  (auth_unreachable w cfg = false /\
   exists out', connectToAuth w cfg tracer out = (Return (dial_options cfg), out')).
Proof.
  unfold auth_unreachable, credentials_fail, connectToAuth, dial_options, bind.
  destruct (authTLS cfg); simpl.
  - destruct (String.eqb (authCACerts cfg) ""); simpl.
    + destruct (grpc_Dial w (authURL cfg) []); simpl;
        [left|right]; (split; [reflexivity|]); eexists; reflexivity.
    + destruct (credentials_NewClientTLSFromFile w (authCACerts cfg)); simpl.
      * left. split; [reflexivity|]. eexists. reflexivity.
      * destruct (grpc_Dial w (authURL cfg) _); simpl;
          [left|right]; (split; [reflexivity|]); eexists; reflexivity.
  - destruct (grpc_Dial w (authURL cfg) [WithInsecure]); simpl;
      [left|right]; (split; [reflexivity|]); eexists; reflexivity.
Qed.

(** With a configuration loaded, [boot] exits, with status 1, exactly when one
    of its later steps fails, and otherwise hands the service over, consuming
    or not. *)
Lemma boot_cases w cfg out :
  loadConfig (environ w) out = (Return cfg, out) ->
  (boot_failure w cfg = true /\ exists out', boot w out = (Exit 1, out'))
  \/
  (boot_failure w cfg = false /\
   exists svc out',
     boot w out = (Return svc, out') /\ svc_cfg svc = cfg /\
     svc_consuming svc = negb (failed (consumers_Start w (configPath cfg)))).
Proof.
  intros Hcfg. remember (boot w out) as r eqn:Hr.
  unfold boot in Hr. unfold bind at 1 in Hr. rewrite Hcfg in Hr.
  unfold boot_failure, logger_fails, store_unreachable, bus_unreachable.
  unfold bind at 1 in Hr.
  destruct (logger_New w (logLevel cfg)); simpl in *.
  { left. subst r. split; [reflexivity|]. eexists. reflexivity. }
  unfold bind at 1 in Hr. unfold connectToDB in Hr.
  destruct (postgres_Connect w (dbConfig cfg)); simpl in *.
  { left. subst r. split; [reflexivity|]. eexists. reflexivity. }
  unfold bind at 1 in Hr.
  destruct (nats_NewPubSub w (natsURL cfg)); simpl in *.
  { left. subst r. split; [reflexivity|]. eexists. reflexivity. }
  unfold bind at 1 in Hr.
  destruct (initJaeger_cases w "auth" cfg out) as [[-> [e Ha]]|[-> [a Ha]]];
    rewrite Ha in Hr; simpl in *.
  { left. subst r. split; [reflexivity|]. eexists. reflexivity. }
  unfold bind at 1 in Hr.
  destruct (connectToAuth_cases w cfg (fst a) out)
    as [[-> [o1 Hc]]|[-> [o1 Hc]]]; rewrite Hc in Hr; simpl in *.
  { left. subst r. split; [reflexivity|]. eexists. reflexivity. }
  unfold bind at 1 in Hr.
  destruct (initJaeger_cases w "smpp-notifier" cfg o1) as [[-> [e Ht]]|[-> [t Ht]]];
    rewrite Ht in Hr; simpl in *.
  { left. subst r. split; [reflexivity|]. eexists. reflexivity. }
  unfold bind at 1 in Hr.
  destruct (initJaeger_cases w "smpp-notifier_db" cfg o1)
    as [[-> [e Hd]]|[-> [d Hd]]]; rewrite Hd in Hr; simpl in *.
  { left. subst r. split; [reflexivity|]. eexists. reflexivity. }
  right. split; [reflexivity|].
  unfold bind in Hr.
  destruct (consumers_Start w (configPath cfg)); simpl in *; subst r;
    (eexists; eexists; split; [reflexivity|split; reflexivity]).
Qed.

Lemma boot_config_fatal w out :
  config_fatal (environ w) = true -> exists out', boot w out = (Exit 1, out').
Proof.
  intros Hf.
  destruct (loadConfig_cases (environ w) out) as [[_ (e & Hrun & _)]|[Hf' _]].
  - unfold boot, bind. rewrite Hrun. eauto.
  - rewrite Hf in Hf'. discriminate.
Qed.

Lemma serve_messages evs : forall out,
  forallb is_message evs = true -> serve evs out = (Return Serving, out).
Proof.
  induction evs as [|ev evs IH]; intros out H; [reflexivity|].
  simpl in H. apply andb_prop in H as [Hev Hrest].
  destruct ev; try discriminate.
  simpl. unfold bind. simpl. apply IH. exact Hrest.
Qed.

End Main_facts.

(** ** The pipeline's validation *)

Module writer_facts.

Import writer.

(** Induction on a JSON value, with the hypothesis for every entry of an
    object. *)
Lemma value_ind (P : json.value -> Prop)
  (HInt : forall z, P (json.Int z))
  (HFloat : forall f, P (json.Float f))
  (HStr : forall s, P (json.Str s))
  (HBool : forall b, P (json.Bool b))
  (HObject : forall entries,
     Forall (fun kv => P (snd kv)) entries -> P (json.Object entries)) :
  forall v, P v.
Proof.
  fix IH 1.
  intros [z|f|s|b|entries];
    [apply HInt|apply HFloat|apply HStr|apply HBool|].
  apply HObject. revert entries.
  fix IHes 1. intros [|[k v'] es]; constructor; [apply IH|apply IHes].
Qed.

Lemma value_ok_cons reserved k v es :
  value_ok reserved (json.Object ((k, v) :: es)) =
  key_ok reserved k && value_ok reserved v && value_ok reserved (json.Object es).
Proof. reflexivity. Qed.

Lemma has_separator_In key :
  has_separator key = true <-> In separator (list_ascii_of_string key).
Proof.
  unfold has_separator. rewrite existsb_exists. split.
  - intros (c & Hin & Heq). apply Ascii.eqb_eq in Heq. now subst.
  - intros Hin. exists separator. split; [exact Hin|apply Ascii.eqb_refl].
Qed.

Lemma reserved_In reserved key :
  existsb (String.eqb key) reserved = true <-> In key reserved.
Proof.
  rewrite existsb_exists. split.
  - intros (k & Hin & Heq). apply String.eqb_eq in Heq. now subst.
  - intros Hin. exists key. split; [exact Hin|apply String.eqb_refl].
Qed.

(** [key_ok] decides [forbidden]. *)
Lemma key_ok_false reserved key :
  key_ok reserved key = false <-> forbidden reserved key.
Proof.
  unfold key_ok, forbidden.
  rewrite <- has_separator_In, <- reserved_In.
  destruct (has_separator key), (existsb (String.eqb key) reserved); simpl;
    split; intros H; auto; destruct H; discriminate.
Qed.

(** A value is refused exactly when a forbidden field name occurs in it. *)
Lemma value_ok_false reserved v :
  value_ok reserved v = false <->
  exists key, key_in key v /\ forbidden reserved key.
Proof.
  induction v as [z|f|s|b|entries IH] using value_ind;
    try (split; [discriminate|intros (k & Hin & _); inversion Hin]).
  induction entries as [|[k v] es IHes].
  - split; [discriminate|].
    intros (key & Hin & _). inversion Hin; subst; contradiction.
  - rewrite value_ok_cons.
    apply List.Forall_cons_iff in IH as [IHv IHrest]. simpl in IHv.
    specialize (IHes IHrest).
    split.
    + intros H.
      destruct (key_ok reserved k) eqn:Hk.
      * destruct (value_ok reserved v) eqn:Hv.
        -- simpl in H. apply IHes in H as (key & Hin & Hbad).
           exists key. split; [|exact Hbad].
           inversion Hin; subst.
           ++ eapply key_here. right. eassumption.
           ++ eapply key_below; [right; eassumption|assumption].
        -- destruct IHv as [IHv _]. destruct (IHv eq_refl) as (key & Hin & Hbad).
           exists key. split; [|exact Hbad].
           eapply key_below; [left; reflexivity|exact Hin].
      * exists k. split; [|apply key_ok_false; exact Hk].
        eapply key_here. left. reflexivity.
    + intros (key & Hin & Hbad).
      inversion Hin as [es0 v0 Hmem|es0 k0 v0 Hmem Hsub]; subst.
      * destruct Hmem as [Heq|Hmem].
        -- injection Heq as <- <-.
           apply key_ok_false in Hbad. rewrite Hbad. reflexivity.
        -- assert (Hes : value_ok reserved (json.Object es) = false).
           { apply IHes. exists key. split; [|exact Hbad].
             eapply key_here. exact Hmem. }
           rewrite Hes. apply andb_false_r.
      * destruct Hmem as [Heq|Hmem].
        -- injection Heq as <- <-.
           assert (Hv : value_ok reserved v = false).
           { apply IHv. exists key. split; assumption. }
           rewrite Hv. rewrite andb_false_r. reflexivity.
        -- assert (Hes : value_ok reserved (json.Object es) = false).
           { apply IHes. exists key. split; [|exact Hbad].
             eapply key_below; eassumption. }
           rewrite Hes. apply andb_false_r.
Qed.

(** [record_ok] decides [bad_record]. *)
Lemma record_ok_false reserved r :
  record_ok reserved r = false <-> bad_record reserved r.
Proof.
  destruct r as [m|fmt m]; simpl.
  - split; [discriminate|contradiction].
  - apply value_ok_false.
Qed.

Lemma record_ok_true reserved r :
  record_ok reserved r = true <-> ~ bad_record reserved r.
Proof.
  rewrite <- record_ok_false.
  destruct (record_ok reserved r); split; intros H; congruence.
Qed.

(** One refused record refuses the batch, whatever stands around it. *)
Lemma points_bad reserved rs :
  Exists (bad_record reserved) rs -> points reserved rs = inl ErrInvalidKey.
Proof.
  induction rs as [|r rs IH]; intros H; [inversion H|].
  simpl. destruct (record_ok reserved r) eqn:Hr; [|reflexivity].
  apply List.Exists_cons in H as [H|H].
  - apply record_ok_false in H. congruence.
  - rewrite (IH H). reflexivity.
Qed.

(** A batch of allowed records passes whole, in order. *)
Lemma points_good reserved rs :
  Forall (fun r => ~ bad_record reserved r) rs -> points reserved rs = inr rs.
Proof.
  induction rs as [|r rs IH]; intros H; [reflexivity|].
  apply List.Forall_cons_iff in H as [Hr Hrs].
  simpl. apply record_ok_true in Hr. rewrite Hr, (IH Hrs). reflexivity.
Qed.

End writer_facts.

(** ** The tests' batches through the pipeline *)

Example json_cases_run :
  influxdb_test.run_cases (writer.Consume ["publisher"]) writer.empty_sink
    (influxdb_test.json_cases "ch" "pub" 0 1700000000000000000)
  = [ (None, 250%nat); (Some writer.ErrInvalidKey, 250%nat);
      (Some writer.ErrInvalidKey, 250%nat) ].
Proof. vm_compute. reflexivity. Qed.

Example json_invalid_key_name_refused :
  fst (writer.Consume ["publisher"] writer.empty_sink
         (writer.JsonBatch (influxdb_test.invalidKeyNameMsgs "ch" "pub" 0)))
  = Some writer.ErrInvalidKey.
Proof. vm_compute. reflexivity. Qed.

Example senml_batch_stored :
  let '(err, s) :=
    writer.Consume ["publisher"] writer.empty_sink
      (writer.SenmlBatch (influxdb_test.senml_msgs 1700000000000000000 250)) in
  err = None /\ length (writer.rows s) = 250%nat.
Proof. vm_compute. split; reflexivity. Qed.

(** ** The loop of [TestSaveSenml] *)

Module influxdb_test_facts.

Import influxdb_test.

(** Round [i] sets the field of the round on top of those set before, and
    appends the message as it then is. *)
Lemma senml_round_populated now msg msgs (i : nat) :
  senml.populated msg = carried i ->
  let st := senml_round now (msg, msgs) (Z.of_nat i) in
  senml.populated (fst st) = cumulative i
  /\ snd st = (msgs ++ [fst st])%list.
Proof.
  intros H.
  unfold senml.populated in H.
  destruct i as [|[|[|[|[|i]]]]]; simpl in H;
    injection H as H0 H1 H2 H3 H4.
  1-5: unfold senml_round; simpl; unfold senml.populated; simpl;
       rewrite ?H0, ?H1, ?H2, ?H3, ?H4; split; reflexivity.
  cbv zeta. unfold senml_round.
  destruct (Z.rem _ valueFields =? 0); [|
  destruct (Z.rem _ valueFields =? 1); [|
  destruct (Z.rem _ valueFields =? 2); [|
  destruct (Z.rem _ valueFields =? 3); [|
  destruct (Z.rem _ valueFields =? 4)]]]];
    unfold senml.populated; simpl;
    rewrite ?H0, ?H1, ?H2, ?H3, ?H4; split; reflexivity.
Qed.

(** After [n] rounds: [n] messages, the [k]-th carrying the fields of the
    rounds up to [k]. *)
Lemma senml_loop_invariant now n :
  let st := fold_left (senml_round now) (map Z.of_nat (seq 0 n)) (senml_msg, []) in
  length (snd st) = n
  /\ senml.populated (fst st) = carried n
  /\ forall k, (k < n)%nat ->
       exists m, nth_error (snd st) k = Some m /\ senml.populated m = cumulative k.
Proof.
  induction n as [|n IH].
  - simpl. repeat split. intros k Hk. lia.
  - rewrite seq_S, map_app, fold_left_app. simpl.
    destruct (fold_left (senml_round now) (map Z.of_nat (seq 0 n)) (senml_msg, []))
      as [msg msgs] eqn:Hst.
    simpl in IH. destruct IH as (Hlen & Hpop & Hnth).
    destruct (senml_round_populated now msg msgs n Hpop) as [Hnew Happ].
    destruct (senml_round now (msg, msgs) (Z.of_nat n)) as [msg' msgs'].
    simpl in *. subst msgs'.
    split; [rewrite length_app; simpl; lia|].
    split; [exact Hnew|].
    intros k Hk.
    destruct (Nat.eq_dec k n) as [->|Hne].
    + exists msg'. split; [|exact Hnew].
      rewrite nth_error_app2 by lia. rewrite Hlen, Nat.sub_diag. reflexivity.
    + destruct (Hnth k ltac:(lia)) as (m & Hm & Hp).
      exists m. split; [|exact Hp].
      rewrite nth_error_app1 by lia. exact Hm.
Qed.

End influxdb_test_facts.

(** ** The dispatcher's sends *)

Module notifiers_facts.

Import notifiers.

Section Dispatch.

Context {S C : Type} {store : SubscriptionStore S} {channel : NotificationChannel C}.




End Dispatch.

(** The gateway's record of calls grows by one call per subscription. *)
Lemma dispatch_calls (text : string) (subs : list Subscription) : forall g : Gateway,
  calls (snd (dispatch g text subs))
  = (calls g ++ map (fun sub => (sub_contact sub, text)) subs)%list.
Proof.
  induction subs as [|sub subs IH]; intros g; simpl.
  - rewrite app_nil_r. reflexivity.
  - unfold Send at 1, Gateway_channel at 1.
    destruct (existsb (String.eqb (sub_contact sub)) (refused g));
      match goal with
      | |- context [dispatch ?g1 text subs] =>
          specialize (IH g1); destruct (dispatch g1 text subs) as [ds g2]
      end;
      simpl in *; rewrite IH, <- app_assoc; reflexivity.
Qed.

End notifiers_facts.

(** ** Valid batches, and the rows of the batch of five *)

Module stored_facts.

Import writer.

Lemma forallb_record_ok reserved rs :
  forallb (record_ok reserved) rs = true ->
  Forall (fun r => ~ bad_record reserved r) rs.
Proof.
  intros H. apply List.Forall_forall. intros r Hin.
  apply writer_facts.record_ok_true.
  rewrite forallb_forall in H. apply H. exact Hin.
Qed.

(** What [Consume] comes to on a batch of allowed records: one write of the
    whole batch, or the sink's failure. *)
Lemma Consume_valid reserved s b :
  Forall (fun r => ~ bad_record reserved r) (records b) ->
  Consume reserved s b =
  if reachable s then (None, stored.appended s (records b))
  else (Some ErrSinkUnavailable, s).
Proof.
  intros Hok. unfold Consume, Write.
  rewrite (writer_facts.points_good reserved _ Hok).
  unfold stored.appended.
  destruct (reachable s); reflexivity.
Qed.


End stored_facts.

(** ** The sends of the dispatcher, one by one *)

Module sends_facts.

Import notifiers sends.

Section Channel.

Context {C : Type} {channel : NotificationChannel C}.




End Channel.

End sends_facts.

(** With the gateway out of order every subscription still gets its call, and
    the aggregate is the channel's failure. *)
Example Notify_during_outage :
  notifiers.Notify notifiers.sample_render notifiers.sample_store
    {| sends.attempts := 0 |} notifiers.sample_record
  = (Some writer.ErrSinkUnavailable,
     map (fun sub => {| notifiers.to := sub;
                        notifiers.body := "alerts/temp C";
                        notifiers.outcome := notifiers.TransientlyFailed |})
       (List.filter
          (fun sub => notifiers.matches (notifiers.sub_topic sub) "alerts/temp")
          (notifiers.held notifiers.sample_store)),
     {| sends.attempts := 3 |}).
Proof. vm_compute. reflexivity. Qed.

(** ** Claims on [loadConfig] and [initJaeger] *)

(** C10. [loadConfig] ends the process, with status 1, exactly when one of the
    six parsed variables (the auth timeout as a duration, the auth TLS flag as
    a boolean, the four SMPP TON and NPI values as base-10 unsigned integers of
    at most 255) is set to a value that does not parse.  Otherwise it returns,
    writing nothing, a configuration in which every setting holds the value of
    its variable when that is set and its default when it is not, and the four
    TON and NPI fields hold exactly the number written, which lies in 0..255. *)
Theorem loadConfig_fatal_iff_unparsable
  (environ : gmap string string) (out : list Main.entry) :
  ((exists code out', Main.loadConfig environ out = (Main.Exit code, out'))
   <-> Main.config_fatal environ = true)
  /\ (forall code out',
        Main.loadConfig environ out = (Main.Exit code, out') -> code = 1)
  /\ (Main.config_fatal environ = false ->
      exists cfg,
        Main.loadConfig environ out = (Main.Return cfg, out)
        /\ Forall (fun '(key, def, field) =>
             (Main.Getenv environ key = "" -> field cfg = def)
             /\ (Main.Getenv environ key <> "" ->
                 field cfg = Main.Getenv environ key))
             Main.string_settings
        /\ time.ParseDuration (Main.Env environ Main.envAuthTimeout Main.defAuthTimeout)
           = (Main.authTimeout cfg, None)
        /\ (Main.Getenv environ Main.envAuthTimeout = "" ->
            Main.authTimeout cfg = time.Second)
        /\ strconv.ParseBool (Main.Env environ Main.envAuthTLS Main.defAuthTLS)
           = (Main.authTLS cfg, None)
        /\ (Main.Getenv environ Main.envAuthTLS = "" -> Main.authTLS cfg = false)
        /\ Forall (fun '(key, def, field) =>
             strconv.decimal_uint8 (Main.Env environ key def) = Some (field cfg)
             /\ 0 <= field cfg <= 255
             /\ (Main.Getenv environ key = "" -> field cfg = 0))
             Main.address_settings).
Proof.
  destruct (Main_facts.loadConfig_cases environ out)
    as [[Hf (e & Hrun & _)] | [Hf (d & b & n1 & n2 & n3 & n4 & Hd & Hb & H1 & H2 & H3 & H4 & Hrun)]].
  - split; [|split].
    + split; [intros _; exact Hf|]. intros _. eauto.
    + intros code out' H. rewrite Hrun in H. injection H as <- _. reflexivity.
    + rewrite Hf. discriminate.
  - split; [|split].
    + split.
      * intros (code & out' & H). rewrite Hrun in H. discriminate.
      * rewrite Hf. discriminate.
    + intros code out' H. rewrite Hrun in H. discriminate.
    + intros _. eexists. split; [exact Hrun|].
      assert (Hn : forall key n,
        strconv.decimal_uint8 (Main.Env environ key "0") = Some n ->
        strconv.decimal_uint8 (Main.Env environ key "0") = Some (Main.uint8 n)
        /\ 0 <= Main.uint8 n <= 255
        /\ (Main.Getenv environ key = "" -> Main.uint8 n = 0)).
      { intros key n Hn.
        pose proof (strconv_facts.ParseUint_10_8 (Main.Env environ key "0")) as Hp.
        rewrite Hn in Hp. destruct Hp as [_ Hr].
        rewrite (Main_facts.uint8_small n Hr). repeat split; try lia; [exact Hn|].
        intros Hu. rewrite (Main_facts.Env_unset _ _ _ Hu) in Hn.
        vm_compute in Hn. injection Hn as <-. reflexivity. }
      simpl.
      split; [|split; [exact Hd|split; [|split; [exact Hb|split]]]].
      * unfold Main.string_settings.
        repeat match goal with
        | |- Forall _ (_ :: _) =>
            constructor;
            [split; [apply Main_facts.Env_unset|apply Main_facts.Env_set]|]
        end.
        constructor.
      * intros Hu. rewrite (Main_facts.Env_unset _ _ _ Hu) in Hd.
        vm_compute in Hd. injection Hd as <-. reflexivity.
      * intros Hu. rewrite (Main_facts.Env_unset _ _ _ Hu) in Hb.
        vm_compute in Hb. injection Hb as <-. reflexivity.
      * unfold Main.address_settings.
        repeat match goal with
        | |- Forall _ (_ :: _) => constructor; [apply Hn; assumption|]
        end.
        constructor.
Qed.

(** Applying C10 to an environment that sets three variables. *)
Lemma loadConfig_fatal_iff_unparsable_witness :
  Main.config_fatal Main.env_sample = false
  /\ exists cfg,
       Main.loadConfig Main.env_sample [] = (Main.Return cfg, [])
       /\ time.ParseDuration "2m" = (Main.authTimeout cfg, None).
Proof.
  split; [vm_compute; reflexivity|].
  destruct (loadConfig_fatal_iff_unparsable Main.env_sample []) as (_ & _ & H).
  destruct (H ltac:(vm_compute; reflexivity)) as (cfg & Hrun & _ & Hd & _).
  exists cfg. split; [exact Hrun|exact Hd].
Defined.

(** C9. Whatever the surroundings, [initJaeger] called with the empty URL
    returns the no-op tracer and the no-op closer, writes nothing and does not
    exit; and when [MF_JAEGER_URL] has no value the URL [loadConfig] hands over
    is the empty one, so that no tracer of [main] can stop the start-up. *)
Theorem initJaeger_noop_without_url
  (w : Main.World) (svcName : string) (out : list Main.entry) :
  Main.initJaeger w svcName "" out
    = (Main.Return (Main.NoopTracer, Main.NopCloser), out)
  /\ (forall cfg out0 out1,
        Main.Getenv (Main.environ w) Main.envJaegerURL = "" ->
        Main.loadConfig (Main.environ w) out0 = (Main.Return cfg, out1) ->
        Main.jaegerURL cfg = ""
        /\ Main.tracer_fails w svcName cfg = false
        /\ Main.initJaeger w svcName (Main.jaegerURL cfg) out
           = (Main.Return (Main.NoopTracer, Main.NopCloser), out)).
Proof.
  split; [reflexivity|].
  intros cfg out0 out1 Hunset Hrun.
  assert (Hurl : Main.jaegerURL cfg = "").
  { destruct (Main_facts.loadConfig_cases (Main.environ w) out0)
      as [[_ (e & He & _)]|[_ (d & b & n1 & n2 & n3 & n4 & _ & _ & _ & _ & _ & _ & Hc)]].
    - rewrite He in Hrun. discriminate.
    - rewrite Hc in Hrun. injection Hrun as <- _. simpl.
      apply Main_facts.Env_unset. exact Hunset. }
  unfold Main.tracer_fails. rewrite Hurl. repeat split.
Qed.

(** Applying C9 where no tracer can be made and no variable is set. *)
Lemma initJaeger_noop_without_url_witness :
  Main.initJaeger Main.world_no_tracer "auth"
    (Main.jaegerURL Main.default_config) []
  = (Main.Return (Main.NoopTracer, Main.NopCloser), []).
Proof.
  destruct (initJaeger_noop_without_url Main.world_no_tracer "auth" []) as [_ H].
  destruct (H Main.default_config [] []) as (_ & _ & Hrun).
  - reflexivity.
  - vm_compute. reflexivity.
  - exact Hrun.
Defined.

(** ** The claim on what ends the process *)

(** C8, as stated, fails: with the store and the bus both answering, a value
    of [MF_AUTH_GRPC_TIMEOUT] that is no duration ends the process with
    status 1. *)
Lemma boot_exit_with_store_and_bus_up :
  Main.boot (Main.world_ok Main.env_bad_timeout) [] =
    (Main.Exit 1,
     [ {| Main.lvl := Main.StdLog; Main.format := "Invalid %s value: %s";
          Main.args := [Main.AStr "MF_AUTH_GRPC_TIMEOUT";
                        Main.ADurationErr (time.InvalidDuration "soon")] |} ])
  /\ (forall c, Main.postgres_Connect (Main.world_ok Main.env_bad_timeout) c = None)
  /\ (forall u, Main.nats_NewPubSub (Main.world_ok Main.env_bad_timeout) u = None).
Proof. split; [vm_compute; reflexivity|split; reflexivity]. Qed.

(** C8, amended. At boot the process exits, always with status 1, when a
    configuration value does not parse and, once the configuration is loaded,
    exactly when the logger cannot be made, the store or the bus cannot be
    reached, a tracer cannot be made or the auth service cannot be reached; so
    every failure to reach the store or the bus ends it.  A failure of
    [consumers.Start] is logged and the service starts without consuming.
    While [main] waits, handled messages, failed or not, leave it waiting. *)
Theorem boot_fatal_conditions (w : Main.World) (out : list Main.entry) :
  (Main.config_fatal (Main.environ w) = true ->
   exists out', Main.boot w out = (Main.Exit 1, out'))
  /\ (forall cfg,
        Main.loadConfig (Main.environ w) out = (Main.Return cfg, out) ->
        ((exists code out', Main.boot w out = (Main.Exit code, out'))
         <-> Main.boot_failure w cfg = true)
        /\ (Main.store_unreachable w cfg = true ->
            exists out', Main.boot w out = (Main.Exit 1, out'))
        /\ (Main.bus_unreachable w cfg = true ->
            exists out', Main.boot w out = (Main.Exit 1, out'))
        /\ (Main.boot_failure w cfg = false ->
            exists svc out',
              Main.boot w out = (Main.Return svc, out')
              /\ Main.svc_cfg svc = cfg
              /\ Main.svc_consuming svc
                 = negb (Main.failed (Main.consumers_Start w (Main.configPath cfg)))))
  /\ (forall code out', Main.boot w out = (Main.Exit code, out') -> code = 1)
  /\ (forall evs out0,
        forallb Main.is_message evs = true ->
        Main.serve evs out0 = (Main.Return Main.Serving, out0)).
Proof.
  split; [apply Main_facts.boot_config_fatal|].
  split; [|split].
  - intros cfg Hcfg.
    destruct (Main_facts.boot_cases w cfg out Hcfg)
      as [[Hf (o & Hb)]|[Hf (svc & o & Hb & Hs)]].
    + repeat split; eauto.
      rewrite Hf. discriminate.
    + assert (Hstore : Main.store_unreachable w cfg = false).
      { unfold Main.boot_failure in Hf.
        destruct (Main.store_unreachable w cfg); [|reflexivity].
        rewrite orb_true_r in Hf. discriminate. }
      assert (Hbus : Main.bus_unreachable w cfg = false).
      { unfold Main.boot_failure in Hf.
        destruct (Main.bus_unreachable w cfg); [|reflexivity].
        rewrite !orb_true_r in Hf. discriminate. }
      rewrite Hf, Hstore, Hbus. repeat split; try discriminate.
      * intros (c & o' & H). rewrite Hb in H. discriminate.
      * eauto.
  - intros code out' H.
    destruct (Main_facts.loadConfig_cases (Main.environ w) out)
      as [[Hf _]|[_ (d & b & n1 & n2 & n3 & n4 & _ & _ & _ & _ & _ & _ & Hc)]].
    + destruct (Main_facts.boot_config_fatal w out Hf) as [o Hb].
      rewrite Hb in H. injection H as <- _. reflexivity.
    + destruct (Main_facts.boot_cases w _ out Hc)
        as [[_ (o & Hb)]|[_ (svc & o & Hb & _)]]; rewrite Hb in H.
      * injection H as <- _. reflexivity.
      * discriminate.
  - intros evs out0. apply Main_facts.serve_messages.
Qed.

(** Applying the amended C8 where the store refuses the connection. *)
Lemma boot_fatal_conditions_witness :
  Main.store_unreachable Main.world_no_store Main.default_config = true
  /\ exists out', Main.boot Main.world_no_store [] = (Main.Exit 1, out').
Proof.
  split; [reflexivity|].
  destruct (boot_fatal_conditions Main.world_no_store []) as (_ & H & _).
  destruct (H Main.default_config ltac:(vm_compute; reflexivity)) as (_ & Hs & _).
  apply Hs. reflexivity.
Defined.

(** ** Claims on the consumer pipeline *)

(** C1. A batch with at least one record that has a forbidden field name (one
    holding the separator ['/'], or a reserved one) is refused whole: [Consume]
    returns the invalid-key error, of class [ValidationError], and the sink is
    what it was, with no row added. *)
Theorem Consume_rejects_batch_atomically
  (reserved : list string) (s : writer.Sink) (b : writer.Batch) :
  Exists (writer.bad_record reserved) (writer.records b) ->
  writer.Consume reserved s b = (Some writer.ErrInvalidKey, s)
  /\ writer.class_of writer.ErrInvalidKey = writer.ValidationError
  /\ writer.rows (snd (writer.Consume reserved s b)) = writer.rows s.
Proof.
  intros Hbad. unfold writer.Consume.
  rewrite (writer_facts.points_bad reserved _ Hbad). repeat split.
Qed.

(** Applying C1 to a valid message followed by one that names a field
    [publisher]. *)
Lemma Consume_rejects_batch_atomically_witness :
  writer.Consume ["publisher"] writer.empty_sink influxdb_test.mixed_batch
  = (Some writer.ErrInvalidKey, writer.empty_sink).
Proof.
  apply (Consume_rejects_batch_atomically ["publisher"] writer.empty_sink
           influxdb_test.mixed_batch).
  apply List.Exists_cons_tl. apply List.Exists_cons_hd.
  exists "publisher". split.
  - eapply writer.key_here. simpl. do 5 right. left. reflexivity.
  - right. left. reflexivity.
Defined.

(** C2, as stated, fails: the 250 valid JSON messages of the test, handed to
    a sink that cannot be reached, come back with the sink's error and nothing
    is stored. *)
Lemma Consume_valid_batch_sink_down :
  writer.Consume ["publisher"] stored.sink_down
    (writer.JsonBatch (influxdb_test.msgs "ch" "pub" 0 1700000000000000000))
  = (Some writer.ErrSinkUnavailable, stored.sink_down)
  /\ Forall (fun r => ~ writer.bad_record ["publisher"] r)
       (writer.records
          (writer.JsonBatch (influxdb_test.msgs "ch" "pub" 0 1700000000000000000)))
  /\ length
       (writer.records
          (writer.JsonBatch (influxdb_test.msgs "ch" "pub" 0 1700000000000000000)))
     = 250%nat.
Proof.
  split; [vm_compute; reflexivity|]. split; [|vm_compute; reflexivity].
  apply stored_facts.forallb_record_ok. vm_compute. reflexivity.
Qed.

(** C2, amended. A batch of records none of which has a forbidden field name
    is consumed without error by every sink that can be reached, and the sink
    then holds its former rows followed by one row per record of the batch, in
    order: N records add exactly N rows.  A sink that cannot be reached makes
    [Consume] return the sink's error, and nothing is stored. *)
Theorem Consume_stores_every_record
  (reserved : list string) (s : writer.Sink) (b : writer.Batch) :
  Forall (fun r => ~ writer.bad_record reserved r) (writer.records b) ->
  (writer.reachable s = true ->
   writer.Consume reserved s b = (None, stored.appended s (writer.records b))
   /\ writer.rows (snd (writer.Consume reserved s b))
      = (writer.rows s ++ writer.records b)%list
   /\ length (writer.rows (snd (writer.Consume reserved s b)))
      = (length (writer.rows s) + length (writer.records b))%nat)
  /\ (writer.reachable s = false ->
      writer.Consume reserved s b = (Some writer.ErrSinkUnavailable, s)).
Proof.
  intros Hok. rewrite (stored_facts.Consume_valid reserved s b Hok).
  split; intros Hup; rewrite Hup; [|reflexivity].
  split; [reflexivity|]. simpl. split; [reflexivity|apply length_app].
Qed.

(** Applying the amended C2 to the 250 valid JSON messages of the test, whose
    payloads are nested and name no reserved field. *)
Lemma Consume_stores_every_record_witness :
  fst (writer.Consume ["publisher"] writer.empty_sink
         (writer.JsonBatch (influxdb_test.msgs "ch" "pub" 0 1700000000000000000)))
  = None
  /\ length
       (writer.rows
          (snd (writer.Consume ["publisher"] writer.empty_sink
                  (writer.JsonBatch
                     (influxdb_test.msgs "ch" "pub" 0 1700000000000000000)))))
     = 250%nat.
Proof.
  destruct (Consume_stores_every_record ["publisher"] writer.empty_sink
              (writer.JsonBatch (influxdb_test.msgs "ch" "pub" 0 1700000000000000000)))
    as [Hup _].
  - apply stored_facts.forallb_record_ok. vm_compute. reflexivity.
  - destruct (Hup eq_refl) as (Hrun & _ & Hlen).
    split; [rewrite Hrun; reflexivity|].
    rewrite Hlen. vm_compute. reflexivity.
Defined.

(** ** The claim on the mixed batch *)




(** ** Claims on the notification dispatcher *)



(** C4. When the store answers with no subscription for the record's topic,
    [Notify] makes no send, leaves the channel as it was and returns no
    error. *)
Theorem Notify_without_subscriptions
  {S C : Type} {store : notifiers.SubscriptionStore S}
  {channel : notifiers.NotificationChannel C}
  (render : notifiers.Record_ -> string) (st : S) (ch : C)
  (r : notifiers.Record_) :
  notifiers.FindByTopic st (notifiers.topic r) = inr [] ->
  notifiers.Notify render st ch r = (None, [], ch).
Proof.
  intros Hfind. unfold notifiers.Notify. rewrite Hfind. reflexivity.
Qed.

(** Applying C4: a store that holds one subscription, for another topic. *)
Lemma Notify_without_subscriptions_witness :
  notifiers.Notify notifiers.sample_render
    {| notifiers.held :=
         [ {| notifiers.sub_topic := "other"; notifiers.sub_contact := "15550002";
              notifiers.sub_owner := "a" |} ] |}
    notifiers.sample_gateway notifiers.sample_record
  = (None, [], notifiers.sample_gateway).
Proof.
  apply (Notify_without_subscriptions notifiers.sample_render).
  reflexivity.
Defined.

(** * Further properties of the code *)

(** ** [loadConfig] *)

Module Server_facts.

Import Main Server.

Lemma duration_ok_run environ key def d err :
  time.ParseDuration (Env environ key def) = (d, err) ->
  duration_ok (Env environ key def) = match err with None => true | Some _ => false end.
Proof. intros H. unfold duration_ok. rewrite H. reflexivity. Qed.

Lemma bool_ok_run environ key def b err :
  strconv.ParseBool (Env environ key def) = (b, err) ->
  bool_ok (Env environ key def) = match err with None => true | Some _ => false end.
Proof. intros H. unfold bool_ok. rewrite H. reflexivity. Qed.

Lemma uint8_ok_run environ key def r :
  strconv.decimal_uint8 (Env environ key def) = r ->
  uint8_ok (Env environ key def) = match r with Some _ => true | None => false end.
Proof. intros H. unfold uint8_ok. rewrite H. reflexivity. Qed.

(** Reading a variable does not see a change to another one. *)
Lemma Env_insert_ne environ k v key def :
  k <> key -> Env (<[k := v]> environ) key def = Env environ key def.
Proof.
  intros Hne. unfold Env, Getenv. rewrite lookup_insert_ne by exact Hne.
  reflexivity.
Qed.

End Server_facts.

(** X1. When [loadConfig] ends the process it has written one line of
    [log.Fatalf], and the variable that line names is the first, in the order
    timeout, TLS flag, source TON, destination TON, source NPI, destination
    NPI, that is set to a value that does not parse. *)
Theorem loadConfig_names_first_bad_variable
  (environ : gmap string string) (out out' : list Main.entry) (code : Z) :
  Main.loadConfig environ out = (Main.Exit code, out') ->
  exists before key ok after line,
    Server.parsed_settings = (before ++ (key, ok) :: after)%list
    /\ Forall (fun s => Main.unparsable environ (fst s) (snd s) = false) before
    /\ Main.unparsable environ key ok = true
    /\ out' = (out ++ [line])%list
    /\ Main.lvl line = Main.StdLog
    /\ hd_error (Main.args line) = Some (Main.AStr key).
Proof.
  intros Hrun.
  pose proof (Main_facts.unparsable_Env environ Main.envAuthTimeout
                Main.defAuthTimeout _ Main_facts.duration_ok_def) as U1.
  pose proof (Main_facts.unparsable_Env environ Main.envAuthTLS
                Main.defAuthTLS _ Main_facts.bool_ok_def) as U2.
  pose proof (Main_facts.unparsable_Env environ Main.envSmppSrcAddrTON
                Main.defSmppSrcAddrTON _ Main_facts.uint8_ok_def) as U3.
  pose proof (Main_facts.unparsable_Env environ Main.envSmppDstAddrTON
                Main.defSmppDstAddrTON _ Main_facts.uint8_ok_def) as U4.
  pose proof (Main_facts.unparsable_Env environ Main.envSmppSrcAddrNPI
                Main.defSmppSrcAddrNPI _ Main_facts.uint8_ok_def) as U5.
  pose proof (Main_facts.unparsable_Env environ Main.envSmppDstAddrNPI
                Main.defSmppDstAddrNPI _ Main_facts.uint8_ok_def) as U6.
  unfold Main.loadConfig, Main.bind in Hrun.
  destruct (time.ParseDuration (Main.Env environ Main.envAuthTimeout Main.defAuthTimeout))
    as [d e1] eqn:E1.
  rewrite (Server_facts.duration_ok_run _ _ _ _ _ E1) in U1.
  destruct e1 as [err|]; simpl in Hrun, U1.
  { injection Hrun as <- <-.
    exists [], Main.envAuthTimeout, Main.duration_ok, (tl Server.parsed_settings).
    eexists. repeat split; [constructor|symmetry; exact U1]. }
  destruct (strconv.ParseBool (Main.Env environ Main.envAuthTLS Main.defAuthTLS))
    as [b e2] eqn:E2.
  rewrite (Server_facts.bool_ok_run _ _ _ _ _ E2) in U2.
  destruct e2 as [err|]; simpl in Hrun, U2.
  { injection Hrun as <- <-.
    exists (firstn 1 Server.parsed_settings), Main.envAuthTLS, Main.bool_ok,
      (skipn 2 Server.parsed_settings).
    eexists. repeat split; [|symmetry; exact U2].
    repeat constructor; simpl; congruence. }
  rewrite Main_facts.parseAddr_run in Hrun.
  destruct (strconv.decimal_uint8
              (Main.Env environ Main.envSmppSrcAddrTON Main.defSmppSrcAddrTON))
    as [n1|] eqn:E3;
    rewrite (Server_facts.uint8_ok_run _ _ _ _ E3) in U3; simpl in Hrun, U3.
  2: { injection Hrun as <- <-.
       exists (firstn 2 Server.parsed_settings), Main.envSmppSrcAddrTON, Main.uint8_ok,
         (skipn 3 Server.parsed_settings).
       eexists. repeat split; [|symmetry; exact U3].
       repeat constructor; simpl; congruence. }
  rewrite Main_facts.parseAddr_run in Hrun.
  destruct (strconv.decimal_uint8
              (Main.Env environ Main.envSmppDstAddrTON Main.defSmppDstAddrTON))
    as [n2|] eqn:E4;
    rewrite (Server_facts.uint8_ok_run _ _ _ _ E4) in U4; simpl in Hrun, U4.
  2: { injection Hrun as <- <-.
       exists (firstn 3 Server.parsed_settings), Main.envSmppDstAddrTON, Main.uint8_ok,
         (skipn 4 Server.parsed_settings).
       eexists. repeat split; [|symmetry; exact U4].
       repeat constructor; simpl; congruence. }
  rewrite Main_facts.parseAddr_run in Hrun.
  destruct (strconv.decimal_uint8
              (Main.Env environ Main.envSmppSrcAddrNPI Main.defSmppSrcAddrNPI))
    as [n3|] eqn:E5;
    rewrite (Server_facts.uint8_ok_run _ _ _ _ E5) in U5; simpl in Hrun, U5.
  2: { injection Hrun as <- <-.
       exists (firstn 4 Server.parsed_settings), Main.envSmppSrcAddrNPI, Main.uint8_ok,
         (skipn 5 Server.parsed_settings).
       eexists. repeat split; [|symmetry; exact U5].
       repeat constructor; simpl; congruence. }
  rewrite Main_facts.parseAddr_run in Hrun.
  destruct (strconv.decimal_uint8
              (Main.Env environ Main.envSmppDstAddrNPI Main.defSmppDstAddrNPI))
    as [n4|] eqn:E6;
    rewrite (Server_facts.uint8_ok_run _ _ _ _ E6) in U6; simpl in Hrun, U6.
  2: { injection Hrun as <- <-.
       exists (firstn 5 Server.parsed_settings), Main.envSmppDstAddrNPI, Main.uint8_ok, [].
       eexists. repeat split; [|symmetry; exact U6].
       repeat constructor; simpl; congruence. }
  discriminate Hrun.
Qed.

(** Applying X1: the TLS flag and the destination NPI are both bad, the TLS
    flag comes first. *)
Lemma loadConfig_names_first_bad_variable_witness :
  exists line,
    Main.loadConfig Server.env_two_bad [] = (Main.Exit 1, [line])
    /\ hd_error (Main.args line) = Some (Main.AStr "MF_AUTH_CLIENT_TLS").
Proof.
  destruct (loadConfig_names_first_bad_variable Server.env_two_bad []
              (snd (Main.loadConfig Server.env_two_bad [])) 1)
    as (before & key & ok & after & line & Hsplit & Hbefore & Hbad & Hout & _ & Hname).
  - vm_compute. reflexivity.
  - exists line. split.
    + change [line] with ([] ++ [line])%list. rewrite <- Hout.
      vm_compute. reflexivity.
    + rewrite Hname. f_equal. f_equal.
      destruct before as [|[k1 o1] [|[k2 o2] before]].
      * injection Hsplit as <- <- _.
        assert (X : Main.unparsable Server.env_two_bad Main.envAuthTimeout
                      Main.duration_ok = false) by (vm_compute; reflexivity).
        rewrite X in Hbad. discriminate Hbad.
      * injection Hsplit as _ _ <- _ _. reflexivity.
      * injection Hsplit as _ _ <- <- _.
        apply List.Forall_cons_iff in Hbefore as [_ Hbefore].
        apply List.Forall_cons_iff in Hbefore as [H2 _].
        assert (X : Main.unparsable Server.env_two_bad Main.envAuthTLS
                      Main.bool_ok = true) by (vm_compute; reflexivity).
        simpl fst in H2. simpl snd in H2. rewrite X in H2. discriminate H2.
Defined.

(** X2. [loadConfig] sees the environment only through the 29 variables of
    its list: two environments that give these the same values give the same
    result, so setting, changing or unsetting any other variable changes
    nothing. *)
Theorem loadConfig_reads_only_its_variables
  (environ1 environ2 : gmap string string) (out : list Main.entry) :
  (forall key, In key Server.config_variables ->
               Main.Getenv environ1 key = Main.Getenv environ2 key) ->
  Main.loadConfig environ1 out = Main.loadConfig environ2 out.
Proof.
  intros Hsame.
  assert (HE : forall key def, In key Server.config_variables ->
                 Main.Env environ1 key def = Main.Env environ2 key def).
  { intros key def Hin. unfold Main.Env. rewrite (Hsame key Hin). reflexivity. }
  unfold Main.loadConfig, Main.parseAddr. cbv zeta.
  repeat match goal with
  | |- context [Main.Env environ1 ?k ?d] =>
      rewrite (HE k d)
        by (unfold Server.config_variables; simpl;
            repeat (first [left; reflexivity | right]))
  end.
  reflexivity.
Qed.

(** Applying X2: a variable of another program is set. *)
Lemma loadConfig_reads_only_its_variables_witness :
  Main.loadConfig {[ "MF_INFLUX_WRITER_PORT" := "8900" ]} []
  = (Main.Return Main.default_config, []).
Proof.
  rewrite (loadConfig_reads_only_its_variables
             {[ "MF_INFLUX_WRITER_PORT" := "8900" ]} ∅ []).
  - vm_compute. reflexivity.
  - intros key Hin. unfold Main.Getenv.
    rewrite lookup_singleton_ne; [reflexivity|].
    intros <-. vm_compute in Hin. intuition discriminate.
Defined.

(** X3. In the configuration [loadConfig] returns, TLS towards the auth
    service is on exactly when [MF_AUTH_CLIENT_TLS] is set to one of [1], [t],
    [T], [true], [TRUE], [True]; unset, it is off. *)
Theorem authTLS_on_iff_true_spelling
  (environ : gmap string string) (out out' : list Main.entry) (cfg : Main.config) :
  Main.loadConfig environ out = (Main.Return cfg, out') ->
  (Main.authTLS cfg = true <->
   In (Main.Getenv environ Main.envAuthTLS) Server.true_spellings).
Proof.
  intros Hrun.
  destruct (Main_facts.loadConfig_cases environ out)
    as [[_ (e & He & _)]|[_ (d & b & n1 & n2 & n3 & n4 & _ & Hb & _ & _ & _ & _ & Hc)]].
  { rewrite He in Hrun. discriminate. }
  rewrite Hc in Hrun. injection Hrun as <- _. simpl.
  unfold strconv.ParseBool in Hb.
  fold Server.true_spellings in Hb.
  assert (Hin : forall s, existsb (String.eqb s) Server.true_spellings = true
                          <-> In s Server.true_spellings).
  { intros s. rewrite existsb_exists. split.
    - intros (x & Hx & Heq). apply String.eqb_eq in Heq. subst. exact Hx.
    - intros Hs. exists s. split; [exact Hs|apply String.eqb_refl]. }
  unfold Main.Env in Hb.
  destruct (String.eqb (Main.Getenv environ Main.envAuthTLS) "") eqn:Hset.
  - apply String.eqb_eq in Hset. rewrite Hset.
    simpl in Hb. injection Hb as <-.
    split; [discriminate|]. simpl. intuition discriminate.
  - destruct (existsb (String.eqb (Main.Getenv environ Main.envAuthTLS))
                Server.true_spellings) eqn:Ht.
    + injection Hb as <-. split; [intros _; apply Hin; exact Ht|reflexivity].
    + destruct (existsb _ _) in Hb; [injection Hb as <-|discriminate Hb].
      split; [discriminate|]. intros Hs. apply Hin in Hs. congruence.
Qed.

(** Applying X3 to an environment that spells the flag [T]. *)
Lemma authTLS_on_iff_true_spelling_witness :
  exists cfg,
    Main.loadConfig {[ Main.envAuthTLS := "T" ]} [] = (Main.Return cfg, [])
    /\ Main.authTLS cfg = true.
Proof.
  destruct (Main_facts.loadConfig_cases {[ Main.envAuthTLS := "T" ]} [])
    as [[Hf _]|[_ (d & b & n1 & n2 & n3 & n4 & _ & _ & _ & _ & _ & _ & Hc)]].
  - assert (X : Main.config_fatal {[ Main.envAuthTLS := "T" ]} = false)
      by (vm_compute; reflexivity).
    rewrite X in Hf. discriminate Hf.
  - eexists. split; [exact Hc|].
    apply (proj2 (authTLS_on_iff_true_spelling _ _ _ _ Hc)).
    right. right. left. reflexivity.
Defined.

(** ** [connectToAuth] and [startHTTPServer] *)

(** X4. When [connectToAuth] returns, the dial it made succeeded, and its
    options follow the TLS flag: without TLS it dialled with [WithInsecure]
    alone and wrote the one info line that gRPC is not encrypted; with TLS it
    wrote nothing and never dialled insecurely, using the transport
    credentials of the CA file when one is configured and no option at all
    when none is. *)
Theorem connectToAuth_dial_options
  (w : Main.World) (cfg : Main.config) (tracer : Main.Tracer)
  (out out' : list Main.entry) (opts : list Main.DialOption) :
  Main.connectToAuth w cfg tracer out = (Main.Return opts, out') ->
  Main.grpc_Dial w (Main.authURL cfg) opts = None
  /\ (Main.authTLS cfg = false ->
      opts = [Main.WithInsecure] /\ out' = (out ++ [Server.not_encrypted])%list)
  /\ (Main.authTLS cfg = true ->
      out' = out
      /\ ~ In Main.WithInsecure opts
      /\ (Main.authCACerts cfg = "" -> opts = [])
      /\ (Main.authCACerts cfg <> "" ->
          opts = [Main.WithTransportCredentials (Main.authCACerts cfg)]
          /\ Main.credentials_NewClientTLSFromFile w (Main.authCACerts cfg) = None)).
Proof.
  unfold Main.connectToAuth, Main.bind.
  destruct (Main.authTLS cfg).
  - destruct (String.eqb (Main.authCACerts cfg) "") eqn:Hca; simpl.
    + apply String.eqb_eq in Hca.
      destruct (Main.grpc_Dial w (Main.authURL cfg) []) eqn:Hd; simpl;
        [discriminate|].
      intros H. injection H as <- <-.
      split; [exact Hd|]. split; [discriminate|]. intros _.
      split; [reflexivity|]. split; [simpl; tauto|].
      split; [reflexivity|]. intros Hne. contradiction.
    + apply String.eqb_neq in Hca.
      destruct (Main.credentials_NewClientTLSFromFile w (Main.authCACerts cfg))
        eqn:Hc; simpl; [discriminate|].
      destruct (Main.grpc_Dial w (Main.authURL cfg) _) eqn:Hd; simpl;
        [discriminate|].
      intros H. injection H as <- <-.
      split; [exact Hd|]. split; [discriminate|]. intros _.
      split; [reflexivity|]. split; [simpl; intuition discriminate|].
      split; [intros He; contradiction|]. intros _. split; reflexivity.
  - simpl.
    destruct (Main.grpc_Dial w (Main.authURL cfg) [Main.WithInsecure]) eqn:Hd;
      simpl; [discriminate|].
    intros H. injection H as <- <-.
    split; [exact Hd|]. split; [|discriminate]. intros _. split; reflexivity.
Qed.

(** Applying X4 where TLS is on and no CA file is configured. *)
Lemma connectToAuth_dial_options_witness :
  Main.connectToAuth (Main.world_ok ∅) Server.config_tls_no_ca Main.NoopTracer []
  = (Main.Return [], []).
Proof.
  destruct (Main.connectToAuth (Main.world_ok ∅) Server.config_tls_no_ca
              Main.NoopTracer []) as [[opts|c] o] eqn:E.
  - destruct (connectToAuth_dial_options _ _ _ _ _ _ E) as (_ & _ & H).
    destruct (H eq_refl) as (-> & _ & Hopts & _).
    rewrite (Hopts eq_refl). reflexivity.
  - vm_compute in E. discriminate E.
Defined.

(** X5. With a configuration loaded from the environment, [startHTTPServer]
    listens on [":"] followed by the port of [MF_SMPP_NOTIFIER_HTTP_PORT]
    ([8907] when unset), over plain HTTP exactly when neither the server
    certificate nor the server key is set, and with TLS as soon as one of the
    two is; it writes one info line, and what the listener returns is what it
    sends on [errs]. *)
Theorem startHTTPServer_scheme_from_environment
  (environ : gmap string string) (h : Server.HTTP)
  (out out0 out1 : list Main.entry) (cfg : Main.config) :
  Main.loadConfig environ out0 = (Main.Return cfg, out1) ->
  let port := Main.Env environ Main.envHTTPPort "8907" in
  let cert := Main.Getenv environ Main.envServerCert in
  let key := Main.Getenv environ Main.envServerKey in
  exists line,
    Main.lvl line = Main.LevelInfo
    /\ Server.startHTTPServer h (Main.httpPort cfg) (Main.serverCert cfg)
         (Main.serverKey cfg) out
       = (Main.Return
            (if String.eqb cert "" && String.eqb key ""
             then Server.ListenAndServe h (":" +:+ port)
             else Server.ListenAndServeTLS h (":" +:+ port) cert key),
          (out ++ [line])%list).
Proof.
  intros Hrun port cert key.
  destruct (Main_facts.loadConfig_cases environ out0)
    as [[_ (e & He & _)]|[_ (d & b & n1 & n2 & n3 & n4 & _ & _ & _ & _ & _ & _ & Hc)]].
  { rewrite He in Hrun. discriminate. }
  rewrite Hc in Hrun. injection Hrun as <- _. simpl.
  assert (Hcert : Main.Env environ Main.envServerCert Main.defServerCert = cert).
  { unfold Main.Env. fold cert. destruct (String.eqb cert "") eqn:E; [|reflexivity].
    apply String.eqb_eq in E. rewrite E. reflexivity. }
  assert (Hkey : Main.Env environ Main.envServerKey Main.defServerKey = key).
  { unfold Main.Env. fold key. destruct (String.eqb key "") eqn:E; [|reflexivity].
    apply String.eqb_eq in E. rewrite E. reflexivity. }
  rewrite Hcert, Hkey. change (Main.Env environ Main.envHTTPPort Main.defHTTPPort) with port.
  unfold Server.startHTTPServer, Main.bind.
  destruct (String.eqb cert ""), (String.eqb key ""); simpl;
    (eexists; split; [|reflexivity]; reflexivity).
Qed.

(** Applying X5 to an environment that sets the port and a key, but no
    certificate. *)
Lemma startHTTPServer_scheme_from_environment_witness :
  exists cfg line,
    Main.loadConfig
      {[ Main.envHTTPPort := "9000"; Main.envServerKey := "/key.pem" ]} []
    = (Main.Return cfg, [])
    /\ Server.startHTTPServer Server.sample_http (Main.httpPort cfg)
         (Main.serverCert cfg) (Main.serverKey cfg) []
       = (Main.Return "listen tls :9000", [line]).
Proof.
  destruct (Main_facts.loadConfig_cases
              {[ Main.envHTTPPort := "9000"; Main.envServerKey := "/key.pem" ]} [])
    as [[Hf _]|[_ (d & b & n1 & n2 & n3 & n4 & _ & _ & _ & _ & _ & _ & Hc)]].
  - assert (X : Main.config_fatal
                  {[ Main.envHTTPPort := "9000"; Main.envServerKey := "/key.pem" ]}
                = false) by (vm_compute; reflexivity).
    rewrite X in Hf. discriminate Hf.
  - destruct (startHTTPServer_scheme_from_environment _ Server.sample_http [] _ _ _ Hc)
      as (line & _ & Hrun).
    eexists. exists line. split; [exact Hc|].
    rewrite Hrun. vm_compute. reflexivity.
Defined.

(** ** The boot sequence of [main] *)

Module boot_facts.

Import Main Server.

Lemma failed_false err : failed err = false -> err = None.
Proof. destruct err; [discriminate|reflexivity]. Qed.

Lemma initJaeger_ok w svcName cfg out :
  tracer_fails w svcName cfg = false ->
  exists c,
    initJaeger w svcName (jaegerURL cfg) out
    = (Return (tracer_for svcName (jaegerURL cfg), c), out).
Proof.
  unfold tracer_fails, initJaeger, tracer_for.
  destruct (String.eqb (jaegerURL cfg) ""); simpl.
  - intros _. eexists. reflexivity.
  - destruct (jconfig_NewTracer w svcName (jaegerURL cfg)); simpl;
      [discriminate|]. intros _. eexists. reflexivity.
Qed.

Lemma connectToAuth_ok w cfg tracer out :
  auth_unreachable w cfg = false ->
  connectToAuth w cfg tracer out
  = (Return (dial_options cfg),
     (out ++ (if authTLS cfg then [] else [not_encrypted]))%list).
Proof.
  unfold auth_unreachable, credentials_fail, connectToAuth, dial_options, bind.
  destruct (authTLS cfg); simpl.
  - destruct (String.eqb (authCACerts cfg) ""); simpl.
    + destruct (grpc_Dial w (authURL cfg) []); simpl; [discriminate|].
      intros _. rewrite app_nil_r. reflexivity.
    + destruct (credentials_NewClientTLSFromFile w (authCACerts cfg)); simpl;
        [discriminate|].
      destruct (grpc_Dial w (authURL cfg) _); simpl; [discriminate|].
      intros _. rewrite app_nil_r. reflexivity.
  - destruct (grpc_Dial w (authURL cfg) [WithInsecure]); simpl; [discriminate|].
    intros _. reflexivity.
Qed.

(** A boot in which nothing fails fatally, step by step. *)
Lemma boot_success_run w cfg out :
  loadConfig (environ w) out = (Return cfg, out) ->
  boot_failure w cfg = false ->
  boot w out =
  (Return {| svc_cfg := cfg;
             svc_tracer := tracer_for "smpp-notifier" (jaegerURL cfg);
             svc_dbTracer := tracer_for "smpp-notifier_db" (jaegerURL cfg);
             svc_authTracer := tracer_for "auth" (jaegerURL cfg);
             svc_authOpts := dial_options cfg;
             svc_consuming := negb (failed (consumers_Start w (configPath cfg))) |},
   (out ++ (if authTLS cfg then [] else [not_encrypted])
        ++ match consumers_Start w (configPath cfg) with
           | Some err => [start_failed err]
           | None => []
           end)%list).
Proof.
  intros Hcfg Hf. unfold boot_failure in Hf.
  repeat match type of Hf with
  | _ || _ = false => apply orb_false_elim in Hf; destruct Hf as [Hf ?]
  end.
  unfold logger_fails in Hf.
  unfold store_unreachable, bus_unreachable in *.
  repeat match goal with
  | H : failed _ = false |- _ => apply failed_false in H
  end.
  unfold boot. unfold bind at 1. rewrite Hcfg.
  unfold bind at 1. rewrite Hf. simpl.
  unfold bind at 1. unfold connectToDB.
  match goal with H : postgres_Connect _ _ = None |- _ => rewrite H end. simpl.
  unfold bind at 1.
  match goal with H : nats_NewPubSub _ _ = None |- _ => rewrite H end. simpl.
  unfold bind at 1.
  destruct (initJaeger_ok w "auth" cfg out ltac:(assumption)) as [c1 ->].
  unfold bind at 1.
  rewrite (connectToAuth_ok w cfg _ out ltac:(assumption)).
  unfold bind at 1.
  destruct (initJaeger_ok w "smpp-notifier" cfg
              (out ++ (if authTLS cfg then [] else [not_encrypted]))%list
              ltac:(assumption)) as [c2 ->].
  unfold bind at 1.
  destruct (initJaeger_ok w "smpp-notifier_db" cfg
              (out ++ (if authTLS cfg then [] else [not_encrypted]))%list
              ltac:(assumption)) as [c3 ->].
  unfold bind. simpl.
  destruct (consumers_Start w (configPath cfg)); simpl.
  - rewrite <- app_assoc. reflexivity.
  - rewrite app_nil_r. reflexivity.
Qed.

(** A boot that hands the service over had its configuration loaded and no
    fatal failure after. *)
Lemma boot_returns w out svc out' :
  boot w out = (Return svc, out') ->
  exists cfg,
    loadConfig (environ w) out = (Return cfg, out) /\ boot_failure w cfg = false.
Proof.
  intros Hb.
  destruct (Main_facts.loadConfig_cases (environ w) out)
    as [[Hf _]|[_ (d & b & n1 & n2 & n3 & n4 & _ & _ & _ & _ & _ & _ & Hc)]].
  - destruct (Main_facts.boot_config_fatal w out Hf) as [o Ho].
    rewrite Ho in Hb. discriminate.
  - eexists. split; [exact Hc|].
    destruct (Main_facts.boot_cases w _ out Hc) as [[_ (o & Ho)]|[Hok _]].
    + rewrite Ho in Hb. discriminate.
    + exact Hok.
Qed.

End boot_facts.

(** X6. With the configuration loaded and the logger made, a store that
    cannot be reached ends [main] with status 1 after the one line that says
    so, whatever the bus and the other collaborators would answer; and with
    the store reached, a bus that cannot be reached ends it after the one line
    on NATS. *)
Theorem boot_failure_names_the_dependency
  (w : Main.World) (cfg : Main.config) (out : list Main.entry) :
  Main.loadConfig (Main.environ w) out = (Main.Return cfg, out) ->
  Main.logger_New w (Main.logLevel cfg) = None ->
  (forall err,
     Main.postgres_Connect w (Main.dbConfig cfg) = Some err ->
     Main.boot w out = (Main.Exit 1, (out ++ [Server.postgres_failed err])%list))
  /\ (forall err,
        Main.postgres_Connect w (Main.dbConfig cfg) = None ->
        Main.nats_NewPubSub w (Main.natsURL cfg) = Some err ->
        Main.boot w out = (Main.Exit 1, (out ++ [Server.nats_failed err])%list)).
Proof.
  intros Hcfg Hlog. split.
  - intros err Hdb. unfold Main.boot. unfold Main.bind at 1. rewrite Hcfg.
    unfold Main.bind at 1. rewrite Hlog. simpl.
    unfold Main.bind at 1. unfold Main.connectToDB. rewrite Hdb. reflexivity.
  - intros err Hdb Hbus. unfold Main.boot. unfold Main.bind at 1. rewrite Hcfg.
    unfold Main.bind at 1. rewrite Hlog. simpl.
    unfold Main.bind at 1. unfold Main.connectToDB. rewrite Hdb. simpl.
    unfold Main.bind at 1. rewrite Hbus. reflexivity.
Qed.

(** Applying X6 where the store and the bus both refuse: the line is the
    store's. *)
Lemma boot_failure_names_the_dependency_witness :
  Main.boot Server.world_no_store_no_bus []
  = (Main.Exit 1, [Server.postgres_failed "connection refused"]).
Proof.
  destruct (boot_failure_names_the_dependency Server.world_no_store_no_bus
              Main.default_config []) as [H _].
  - vm_compute. reflexivity.
  - reflexivity.
  - apply (H "connection refused"). reflexivity.
Defined.

(** X8. In the service [main] starts, the three tracers are made for the
    services [auth], [smpp-notifier] and [smpp-notifier_db] from the one
    configured URL: all three are the no-op tracer when the URL is empty, and
    all three are Jaeger tracers for that URL otherwise; and the dial options
    are those of the TLS settings. *)
Theorem boot_tracers_share_the_url
  (w : Main.World) (out out' : list Main.entry) (svc : Main.Service) :
  Main.boot w out = (Main.Return svc, out') ->
  let url := Main.jaegerURL (Main.svc_cfg svc) in
  Main.svc_authTracer svc = Server.tracer_for "auth" url
  /\ Main.svc_tracer svc = Server.tracer_for "smpp-notifier" url
  /\ Main.svc_dbTracer svc = Server.tracer_for "smpp-notifier_db" url
  /\ Main.svc_authOpts svc = Main.dial_options (Main.svc_cfg svc)
  /\ (url = "" ->
      Main.svc_authTracer svc = Main.NoopTracer
      /\ Main.svc_tracer svc = Main.NoopTracer
      /\ Main.svc_dbTracer svc = Main.NoopTracer)
  /\ (url <> "" ->
      Main.svc_authTracer svc = Main.JaegerTracer "auth" url
      /\ Main.svc_tracer svc = Main.JaegerTracer "smpp-notifier" url
      /\ Main.svc_dbTracer svc = Main.JaegerTracer "smpp-notifier_db" url).
Proof.
  intros Hb url.
  destruct (boot_facts.boot_returns w out svc out' Hb) as (cfg & Hcfg & Hok).
  rewrite (boot_facts.boot_success_run w cfg out Hcfg Hok) in Hb.
  injection Hb as <- _. subst url. simpl.
  repeat (split; [reflexivity|]).
  unfold Server.tracer_for. split.
  - intros ->. repeat split.
  - intros Hne.
    destruct (String.eqb (Main.jaegerURL cfg) "") eqn:E.
    + apply String.eqb_eq in E. contradiction.
    + repeat split.
Qed.

(** Applying X8 where a Jaeger agent is configured. *)
Lemma boot_tracers_share_the_url_witness :
  exists svc out',
    Main.boot Server.world_no_consumer [] = (Main.Return svc, out')
    /\ Main.svc_tracer svc = Main.JaegerTracer "smpp-notifier" "localhost:6831"
    /\ Main.svc_dbTracer svc = Main.JaegerTracer "smpp-notifier_db" "localhost:6831".
Proof.
  destruct (Main.boot Server.world_no_consumer []) as [[svc|c] o] eqn:E.
  - destruct (boot_tracers_share_the_url _ _ _ _ E) as (_ & Ht & Hd & _).
    assert (Hurl : match fst (Main.boot Server.world_no_consumer []) with
                   | Main.Return s => Main.jaegerURL (Main.svc_cfg s)
                   | Main.Exit _ => ""
                   end = "localhost:6831") by (vm_compute; reflexivity).
    rewrite E in Hurl. simpl in Hurl.
    exists svc, o. split; [reflexivity|].
    rewrite Ht, Hd, Hurl. split; reflexivity.
  - exfalso.
    assert (X : match fst (Main.boot Server.world_no_consumer []) with
                | Main.Return _ => true
                | Main.Exit _ => false
                end = true) by (vm_compute; reflexivity).
    rewrite E in X. discriminate X.
Defined.

(** ** The batches the writer's tests build *)

Module batches_facts.

Import influxdb_test batches.

(** What round [i] leaves on the one message of the loop, besides the payload
    fields: the header, the numeric value and the subtopic of round 0, and the
    time of this round. *)
Lemma senml_round_message now msg msgs (i : nat) :
  header msg ->
  (i <> 0%nat -> senml.Value msg = Some v /\ senml.Subtopic msg = subtopic) ->
  let st := senml_round now (msg, msgs) (Z.of_nat i) in
  header (fst st)
  /\ senml.Value (fst st) = Some v
  /\ senml.Subtopic (fst st) = subtopic
  /\ senml.Time (fst st) = time_of now i.
Proof.
  intros Hh Hprev. unfold header in *.
  destruct i as [|[|[|[|[|i]]]]].
  1: unfold senml_round; simpl; repeat split; apply Hh.
  1-4: destruct (Hprev ltac:(discriminate)) as [Hv Hs];
       unfold senml_round; simpl; repeat split; solve [apply Hh | assumption].
  destruct (Hprev ltac:(discriminate)) as [Hv Hs].
  cbv zeta. unfold senml_round.
  destruct (Z.rem _ valueFields =? 0); [|
  destruct (Z.rem _ valueFields =? 1); [|
  destruct (Z.rem _ valueFields =? 2); [|
  destruct (Z.rem _ valueFields =? 3); [|
  destruct (Z.rem _ valueFields =? 4)]]]];
    simpl; repeat split; solve [apply Hh | assumption].
Qed.

(** After [n] rounds, the one message and every message appended so far. *)
Lemma senml_loop_messages now n :
  let st := fold_left (senml_round now) (map Z.of_nat (seq 0 n)) (senml_msg, []) in
  length (snd st) = n
  /\ header (fst st)
  /\ (n <> 0%nat -> senml.Value (fst st) = Some v /\ senml.Subtopic (fst st) = subtopic)
  /\ forall k m, nth_error (snd st) k = Some m ->
       header m /\ senml.Value m = Some v /\ senml.Subtopic m = subtopic
       /\ senml.Time m = time_of now k.
Proof.
  induction n as [|n IH].
  - simpl. split; [reflexivity|]. split; [repeat split|].
    split; [intros H; contradiction|].
    intros k m H. destruct k; discriminate H.
  - rewrite seq_S, map_app, fold_left_app. simpl.
    destruct (fold_left (senml_round now) (map Z.of_nat (seq 0 n)) (senml_msg, []))
      as [msg msgs] eqn:Hst.
    simpl in IH. destruct IH as (Hlen & Hh & Hprev & Hnth).
    pose proof (senml_round_message now msg msgs n Hh Hprev) as Hnew.
    assert (Hsnd : snd (senml_round now (msg, msgs) (Z.of_nat n))
                   = (msgs ++ [fst (senml_round now (msg, msgs) (Z.of_nat n))])%list).
    { unfold senml_round. reflexivity. }
    destruct (senml_round now (msg, msgs) (Z.of_nat n)) as [msg' msgs'].
    simpl in *. subst msgs'. destruct Hnew as (Hh' & Hv' & Hs' & Ht').
    split; [rewrite length_app; simpl; lia|].
    split; [exact Hh'|]. split; [intros _; split; assumption|].
    intros k m Hk.
    destruct (Nat.lt_ge_cases k (length msgs)) as [Hlt|Hge].
    + rewrite nth_error_app1 in Hk by exact Hlt. apply Hnth. exact Hk.
    + rewrite nth_error_app2 in Hk by exact Hge.
      destruct (k - length msgs)%nat as [|j] eqn:Hj.
      * simpl in Hk. injection Hk as <-.
        assert (k = n) by lia. subst k.
        split; [exact Hh'|]. split; [exact Hv'|]. split; [exact Hs'|exact Ht'].
      * simpl in Hk. destruct j; discriminate Hk.
Qed.

(** [int64] keeps apart integers that are less than [2^64] apart. *)
Lemma int64_apart a b :
  - 2 ^ 64 < a - b < 2 ^ 64 -> time.int64 a = time.int64 b -> a = b.
Proof.
  unfold time.int64. intros Hd H.
  pose proof (Z.div_mod (a + 2 ^ 63) (2 ^ 64) ltac:(lia)) as Ha.
  pose proof (Z.div_mod (b + 2 ^ 63) (2 ^ 64) ltac:(lia)) as Hb.
  assert (Hm : (a + 2 ^ 63) mod 2 ^ 64 = (b + 2 ^ 63) mod 2 ^ 64) by lia.
  rewrite Hm in Ha.
  change (2 ^ 64) with 18446744073709551616 in *.
  change (2 ^ 63) with 9223372036854775808 in *.
  lia.
Qed.

Lemma NoDup_map_seq {A} (f : nat -> A) n : forall a,
  (forall i j, (a <= i < a + n)%nat -> (a <= j < a + n)%nat -> f i = f j -> i = j) ->
  List.NoDup (map f (seq a n)).
Proof.
  induction n as [|n IH]; intros a Hinj; simpl; constructor.
  - intros Hin. apply List.in_map_iff in Hin as (j & Hfj & Hj).
    apply List.in_seq in Hj.
    assert (j = a) by (apply Hinj; [lia|lia|exact Hfj]). lia.
  - apply IH. intros i j Hi Hj. apply Hinj; lia.
Qed.

End batches_facts.

(** X9. For every number of messages, the loop of [TestSaveSenml] builds
    that many; the message at position [k] carries the payload fields of all
    rounds up to [k], hence always the numeric value, and all five fields from
    the fifth message on; it carries the subtopic set in round 0, and its time
    is the start time in seconds less [k]. *)
Theorem senml_msgs_every_message (now : Z) (n : nat) :
  length (influxdb_test.senml_msgs now n) = n
  /\ forall k m,
       nth_error (influxdb_test.senml_msgs now n) k = Some m ->
       senml.populated m = influxdb_test.cumulative k
       /\ ((4 <= k)%nat -> senml.populated m = [true; true; true; true; true])
       /\ senml.Value m = Some influxdb_test.v
       /\ senml.Subtopic m = "topic"
       /\ senml.Time m = batches.time_of now k.
Proof.
  destruct (batches_facts.senml_loop_messages now n) as (Hlen & _ & _ & Hmsg).
  destruct (influxdb_test_facts.senml_loop_invariant now n) as (_ & _ & Hpop).
  unfold influxdb_test.senml_msgs. split; [exact Hlen|].
  intros k m Hk.
  assert (Hkn : (k < n)%nat).
  { rewrite <- Hlen. apply nth_error_Some. rewrite Hk. discriminate. }
  destruct (Hpop k Hkn) as (m' & Hm' & Hp). rewrite Hk in Hm'. injection Hm' as <-.
  destruct (Hmsg k m Hk) as (_ & Hv & Hs & Ht).
  split; [exact Hp|]. split; [|repeat split; assumption].
  intros H4. rewrite Hp. unfold influxdb_test.cumulative.
  destruct k as [|[|[|[|k]]]]; try lia. reflexivity.
Qed.

(** X10. The valid batch of [TestSaveJSON] holds 250 copies of the message
    that differ in their creation time alone, the copy at position [i] being
    created at [now + i] (as an [int64]); these times are pairwise distinct,
    also where the sum wraps around. *)
Theorem json_msgs_distinct_creation_times (chid pubid : string) (created now : Z) :
  length (json.Data (influxdb_test.msgs chid pubid created now)) = 250%nat
  /\ (forall i m,
        nth_error (json.Data (influxdb_test.msgs chid pubid created now)) i = Some m ->
        m = json.set_Created (time.int64 (now + Z.of_nat i))
              (influxdb_test.msg chid pubid created))
  /\ List.NoDup
       (map json.Created (json.Data (influxdb_test.msgs chid pubid created now))).
Proof.
  unfold influxdb_test.msgs. cbn [json.Data]. unfold influxdb_test.json_data.
  split; [rewrite length_map, length_seq; reflexivity|].
  split.
  - intros i m Hi.
    rewrite nth_error_map in Hi.
    destruct (nth_error (seq 0 influxdb_test.streamsSize) i) as [j|] eqn:Hj;
      [|discriminate Hi].
    simpl in Hi. injection Hi as <-.
    assert (Hlt : (i < influxdb_test.streamsSize)%nat).
    { rewrite <- (length_seq influxdb_test.streamsSize 0).
      apply nth_error_Some. rewrite Hj. discriminate. }
    pose proof (List.nth_error_nth _ _ 0%nat Hj) as Hn.
    rewrite seq_nth in Hn by exact Hlt. simpl in Hn. subst j. reflexivity.
  - rewrite map_map.
    apply batches_facts.NoDup_map_seq.
    intros i j Hi Hj H. unfold influxdb_test.streamsSize in *.
    cbn [json.Created json.set_Created] in H.
    apply batches_facts.int64_apart in H; lia.
Qed.
